(** * FootballMatches: the fixture fetcher and its response cache

    A shallow embedding of [src/server.js]: the date helper
    [getDateString], the upstream fetcher [fetchMatches] and the two
    route handlers [GET /api/matches/today] and
    [GET /api/matches/upcoming], together with the parts of the
    JavaScript run time they rely on (Date objects, the in-memory TTL
    store, the outbound HTTP call).

    Part I holds the definitions, Part II the lemmas and the theorems
    about the specification. *)

From Stdlib Require Import ZArith Ascii String List Bool Lia.
From stdpp Require Import base option list gmap strings pretty.

Local Open Scope string_scope.
Local Open Scope list_scope.
Local Open Scope Z_scope.

(* ===================================================================== *)
(** * Part I: definitions                                                 *)
(* ===================================================================== *)

(** ** JavaScript values

    JSON payloads of the upstream API and the objects built by the
    server.  Objects are finite maps from property names to values.
    Numbers are the integral ones: the program only computes lengths
    and HTTP status codes, every other number is passed through. *)

#[warnings="-register-all"]
Inductive value : Type :=
  | VUndef
  | VNull
  | VBool (b : bool)
  | VNum (n : Z)
  | VStr (s : string)
  | VArr (xs : list value)
  | VObj (o : gmap string value).

(** [ToBoolean]: what [if (v)] and [!v] test. *)
Definition truthy (v : value) : bool :=
  match v with
  | VUndef | VNull => false
  | VBool b => b
  | VNum n => negb (n =? 0)
  | VStr s => negb (String.eqb s "")
  | VArr _ | VObj _ => true
  end.

(** A string argument or environment variable that may be absent
    ([null] / [undefined]). *)
Definition opt_value (o : option string) : value :=
  match o with
  | Some s => VStr s
  | None => VNull
  end.

(** Statements either complete normally or throw an [Error]; the only
    part of a thrown error that the program reads is its [message]. *)
Inductive completion (A : Type) : Type :=
  | Normal (a : A)
  | Throw (message : string).
Arguments Normal {A} a.
Arguments Throw {A} message.

(** Property read [v.k] for the property names used by the server
    ([matches], [status], [error]): none of them lives on a prototype, so
    primitives and arrays answer [undefined]; reading a property of
    [null] or [undefined] is a [TypeError]. *)
Definition getProp (v : value) (k : string) : completion value :=
  match v with
  | VUndef =>
      Throw ("Cannot read properties of undefined (reading '" +:+ k +:+ "')")
  | VNull =>
      Throw ("Cannot read properties of null (reading '" +:+ k +:+ "')")
  | VObj o => Normal (default VUndef (o !! k))
  | _ => Normal VUndef
  end.

(** ** ECMAScript time values and the civil calendar *)

Definition msPerDay : Z := 86400000.
Definition maxTime : Z := 8640000000000000.

Definition Day (t : Z) : Z := t / msPerDay.
Definition TimeWithinDay (t : Z) : Z := t mod msPerDay.

(** Days since the epoch to (year, month 1..12, day of month). *)
Definition civil_from_days (z : Z) : Z * Z * Z :=
  let z := z + 719468 in
  let era := z / 146097 in
  let doe := z mod 146097 in
  let yoe := (doe - doe / 1460 + doe / 36524 - doe / 146096) / 365 in
  let doy := doe - (365 * yoe + yoe / 4 - yoe / 100) in
  let mp := (5 * doy + 2) / 153 in
  let d := doy - (153 * mp + 2) / 5 + 1 in
  let m := if mp <? 10 then mp + 3 else mp - 9 in
  let y := yoe + era * 400 + (if m <=? 2 then 1 else 0) in
  (y, m, d).

(** (year, month 1..12, day of month) to days since the epoch; the day
    may lie outside the month, as [MakeDay] needs it. *)
Definition days_from_civil (y m d : Z) : Z :=
  let y := if m <=? 2 then y - 1 else y in
  let era := y / 400 in
  let yoe := y mod 400 in
  let doy := (153 * (if 2 <? m then m - 3 else m + 9) + 2) / 5 + d - 1 in
  let doe := yoe * 365 + yoe / 4 - yoe / 100 + doy in
  era * 146097 + doe - 719468.

Definition YearFromTime (t : Z) : Z := (civil_from_days (Day t)).1.1.
(** Months are numbered from 0 in ECMAScript. *)
Definition MonthFromTime (t : Z) : Z := (civil_from_days (Day t)).1.2 - 1.
Definition DateFromTime (t : Z) : Z := (civil_from_days (Day t)).2.
Definition HourFromTime (t : Z) : Z := (t / 3600000) mod 24.
Definition MinFromTime (t : Z) : Z := (t / 60000) mod 60.
Definition SecFromTime (t : Z) : Z := (t / 1000) mod 60.
Definition msFromTime (t : Z) : Z := t mod 1000.

Definition MakeDay (year month date : Z) : Z :=
  days_from_civil (year + month / 12) (month mod 12 + 1) 1 + date - 1.
Definition MakeDate (day time : Z) : Z := day * msPerDay + time.

(** [None] stands for [NaN], the time value of an invalid Date. *)
Definition TimeClip (t : Z) : option Z :=
  if Z.abs t <=? maxTime then Some t else None.

Definition isLeapYear (y : Z) : bool :=
  (y mod 4 =? 0) && (negb (y mod 100 =? 0) || (y mod 400 =? 0)).

Definition DaysInMonth (y m : Z) : Z :=
  if m =? 2 then (if isLeapYear y then 29 else 28)
  else if (m =? 4) || (m =? 6) || (m =? 9) || (m =? 11) then 30
  else 31.

(** The host time zone: the offset of local time from UTC, in
    milliseconds, as a function of a UTC instant and of a local one
    ([LocalTZA(t, true)] and [LocalTZA(t, false)]). *)
Record TimeZone : Type := {
  tz_offset_utc : Z -> Z;
  tz_offset_local : Z -> Z
}.

Definition LocalTime (tz : TimeZone) (t : Z) : Z := t + tz_offset_utc tz t.
Definition UTC (tz : TimeZone) (t : Z) : Z := t - tz_offset_local tz t.

(** A zone with one fixed offset (UTC is [fixed_zone 0]). *)
Definition fixed_zone (off : Z) : TimeZone :=
  {| tz_offset_utc := fun _ => off; tz_offset_local := fun _ => off |}.

(** ** Date objects

    A Date is its time value, [None] when invalid. *)

Definition JSDate : Type := option Z.

Definition isNaN_date (d : JSDate) : bool :=
  match d with Some _ => false | None => true end.

(** [d.getDate()]: day of the month in local time, [NaN] on an invalid
    Date. *)
Definition getDate (tz : TimeZone) (d : JSDate) : option Z :=
  t ← d; Some (DateFromTime (LocalTime tz t)).

(** [d.setDate(dt)]. *)
Definition setDate (tz : TimeZone) (d : JSDate) (dt : option Z) : JSDate :=
  t ← d; n ← dt;
  let lt := LocalTime tz t in
  let newDate :=
    MakeDate (MakeDay (YearFromTime lt) (MonthFromTime lt) n)
             (TimeWithinDay lt) in
  TimeClip (UTC tz newDate).

(** Decimal digits. *)
Definition digit (n : Z) : ascii := ascii_of_N (Z.to_N (48 + n)).

Definition digit_val (c : ascii) : option Z :=
  let n := Z.of_N (N_of_ascii c) in
  if (48 <=? n) && (n <=? 57) then Some (n - 48) else None.

Definition digits2 (n : Z) : list ascii :=
  [digit (n / 10 mod 10); digit (n mod 10)].
Definition digits3 (n : Z) : list ascii :=
  digit (n / 100 mod 10) :: digits2 n.
Definition digits4 (n : Z) : list ascii :=
  digit (n / 1000 mod 10) :: digits3 n.
Definition digits6 (n : Z) : list ascii :=
  digit (n / 100000 mod 10) :: digit (n / 10000 mod 10) :: digits4 n.

(** The year of an ISO string: four digits for 0..9999, otherwise a
    sign and six digits. *)
Definition iso_year (y : Z) : list ascii :=
  if (0 <=? y) && (y <=? 9999) then digits4 y
  else (if y <? 0 then "-"%char else "+"%char) :: digits6 (Z.abs y).

Definition iso_date_chars (t : Z) : list ascii :=
  iso_year (YearFromTime t) ++ "-"%char :: digits2 (MonthFromTime t + 1)
    ++ "-"%char :: digits2 (DateFromTime t).

Definition iso_time_chars (t : Z) : list ascii :=
  digits2 (HourFromTime t) ++ ":"%char :: digits2 (MinFromTime t)
    ++ ":"%char :: digits2 (SecFromTime t) ++ "."%char :: digits3 (msFromTime t).

(** [YYYY-MM-DDTHH:mm:ss.sssZ], in UTC. *)
Definition iso_string (t : Z) : string :=
  string_of_list_ascii
    (iso_date_chars t ++ "T"%char :: iso_time_chars t ++ ["Z"%char]).

(** [d.toISOString()]; a [RangeError] on an invalid Date. *)
Definition toISOString (d : JSDate) : completion string :=
  match d with
  | None => Throw "Invalid time value"
  | Some t => Normal (iso_string t)
  end.

Fixpoint take_until (sep : ascii) (l : list ascii) : list ascii :=
  match l with
  | [] => []
  | c :: l' => if Ascii.eqb c sep then [] else c :: take_until sep l'
  end.

(** [s.split('T')[0]]: the part of [s] before its first [T]. *)
Definition split_T_0 (s : string) : string :=
  string_of_list_ascii (take_until "T"%char (list_ascii_of_string s)).

Definition number_of_digits (cs : list ascii) : option Z :=
  foldl (fun acc c => a ← acc; v ← digit_val c; Some (10 * a + v)) (Some 0) cs.

(** The time value of a well-formed calendar date, [None] when the
    month or the day does not exist. *)
Definition date_only_time (y m d : Z) : option Z :=
  if (1 <=? m) && (m <=? 12) && (1 <=? d) && (d <=? DaysInMonth y m)
  then TimeClip (MakeDate (MakeDay y (m - 1) d) 0)
  else None.

(** The date-only forms [YYYY-MM-DD] and [±YYYYYY-MM-DD] of the
    ECMAScript date-time string format: UTC midnight of that day. *)
Definition parse_iso_date (s : string) : option Z :=
  match list_ascii_of_string s with
  | [y1; y2; y3; y4; s1; m1; m2; s2; d1; d2] =>
      if Ascii.eqb s1 "-" && Ascii.eqb s2 "-" then
        y ← number_of_digits [y1; y2; y3; y4];
        m ← number_of_digits [m1; m2];
        d ← number_of_digits [d1; d2];
        date_only_time y m d
      else None
  | [sg; y1; y2; y3; y4; y5; y6; s1; m1; m2; s2; d1; d2] =>
      if Ascii.eqb s1 "-" && Ascii.eqb s2 "-" then
        y ← number_of_digits [y1; y2; y3; y4; y5; y6];
        m ← number_of_digits [m1; m2];
        d ← number_of_digits [d1; d2];
        if Ascii.eqb sg "+" then date_only_time y m d
        else if Ascii.eqb sg "-" && negb (y =? 0) then date_only_time (- y) m d
        else None
      else None
  | _ => None
  end.

(** [new Date(s)] for a string [s].  The empty string is invalid; a
    date-only ISO string is UTC midnight; every other form (date-time
    strings, [YYYY], [YYYY-MM], the engine's legacy formats) is left to
    [other], the engine's remaining parser. *)
Definition Date_parse (other : string -> option Z) (s : string) : JSDate :=
  if String.eqb s "" then None
  else match parse_iso_date s with
       | Some t => Some t
       | None => other s
       end.

(** ** Objects and arrays *)

(** An object literal [{...base, k1: v1, k2: v2}]: later properties
    replace earlier ones of the same name. *)
Definition obj_extend (base : gmap string value) (props : list (string * value))
    : gmap string value :=
  foldl (fun o kv => <[kv.1 := kv.2]> o) base props.

Definition obj_literal (props : list (string * value)) : gmap string value :=
  obj_extend ∅ props.

(** The own properties that [{...v}] copies; the server only spreads
    objects. *)
Definition spread (v : value) : gmap string value :=
  match v with
  | VObj o => o
  | _ => ∅
  end.

(** [v.k] where the read cannot throw ([v] is an object). *)
Definition field (o : gmap string value) (k : string) : value :=
  default VUndef (o !! k).

(** [l.includes(v)] for an array [l] of strings. *)
Definition includes (l : list string) (v : value) : bool :=
  match v with
  | VStr s => existsb (String.eqb s) l
  | _ => false
  end.

Definition wanted_statuses : list string :=
  ["SCHEDULED"; "LIVE"; "IN_PLAY"; "PAUSED"].

(** [matches.filter(m => [...].includes(m.status))]: the callback runs
    on the elements in order and the first exception ends the loop. *)
Fixpoint filter_by_status (ms : list value) : completion (list value) :=
  match ms with
  | [] => Normal []
  | m :: rest =>
      match getProp m "status" with
      | Throw msg => Throw msg
      | Normal st =>
          match filter_by_status rest with
          | Throw msg => Throw msg
          | Normal kept =>
              Normal (if includes wanted_statuses st then m :: kept else kept)
          end
      end
  end.

(** ** The outbound call and its answer *)

Record Request : Type := {
  req_url : string;
  (** the entries of the [URLSearchParams]; the URL gets ['?'] and their
      serialisation appended when there is at least one *)
  req_params : list (string * string);
  req_auth_token : string;
  req_user_agent : string;
  req_timeout : Z
}.

Record Response : Type := {
  res_status : Z;
  (** [res.text()], [None] when reading the body fails *)
  res_text : option string;
  (** [res.json()] *)
  res_json : completion value
}.

Definition res_ok (r : Response) : bool :=
  (200 <=? res_status r) && (res_status r <=? 299).

Inductive FetchOutcome : Type :=
  | Rejected (message : string)
  | Responded (r : Response).

(** ** The TTL store *)

(** Modelled from the spec: the in-memory store [NodeCache] is the npm
    package node-cache, whose code is not part of src/.  Section 3 of
    the specification gives its entries: a value, the instant it was
    stored and a TTL in seconds, readable only while
    [now < storedAt + ttlSeconds]. *)
Record CacheEntry : Type := {
  ce_value : value;
  ce_storedAt : Z;
  ce_ttlSeconds : Z
}.

Definition ce_expiry (e : CacheEntry) : Z :=
  ce_storedAt e + 1000 * ce_ttlSeconds e.

Definition live (now : Z) (e : CacheEntry) : bool := now <? ce_expiry e.

(** [cache.get(key)] at the instant [now]: the stored value while the
    entry is live, [undefined] otherwise. *)
Definition cache_lookup (now : Z) (c : gmap string CacheEntry) (key : string)
    : value :=
  match c !! key with
  | Some e => if live now e then ce_value e else VUndef
  | None => VUndef
  end.

(** ** Environment and state *)

(** What the process finds around it. *)
Record Env : Type := {
  env_zone : TimeZone;
  (** the engine's parser for the date strings that are not date-only ISO *)
  env_other_dates : string -> option Z;
  (** [process.env.FOOTBALL_API_TOKEN] *)
  FOOTBALL_API_TOKEN : option string;
  (** the successive readings of the system clock, in milliseconds *)
  env_clock : nat -> Z;
  (** [await import('node-fetch')]: [Some msg] when the import fails *)
  env_import_error : option string;
  (** the answer to the n-th outbound call *)
  env_upstream : nat -> Request -> FetchOutcome
}.

(** One finished call of the loader [fetchMatches]. *)
Record LoaderCall : Type := {
  lc_dateFrom : option string;
  lc_dateTo : option string;
  lc_result : gmap string value
}.

(** The state of the process, with two logs that the program does not
    keep itself: the outbound calls and the calls of [fetchMatches]. *)
Record World : Type := {
  (** number of clock readings so far *)
  ticks : nat;
  cache : gmap string CacheEntry;
  net_log : list Request;
  loader_log : list LoaderCall
}.

(** The state after one more reading of the clock. *)
Definition tick (w : World) : World :=
  {| ticks := S (ticks w); cache := cache w;
     net_log := net_log w; loader_log := loader_log w |}.

Definition initial_world : World :=
  {| ticks := 0; cache := ∅; net_log := []; loader_log := [] |}.

(** Computations: they read and change the state and may throw. *)
Definition M (A : Type) : Type := World -> completion A * World.

Definition ret {A} (a : A) : M A := fun w => (Normal a, w).
Definition throw {A} (msg : string) : M A := fun w => (Throw msg, w).
Definition bind {A B} (m : M A) (k : A -> M B) : M B :=
  fun w => match m w with
           | (Normal a, w') => k a w'
           | (Throw msg, w') => (Throw msg, w')
           end.
Definition lift {A} (c : completion A) : M A := fun w => (c, w).

(** Sequencing of steps that do not touch the state. *)
Definition cbind {A B} (c : completion A) (k : A -> completion B)
    : completion B :=
  match c with
  | Normal a => k a
  | Throw msg => Throw msg
  end.

(** [try { body } catch (err) { handler(err.message) }] *)
Definition try_catch {A} (body : M A) (handler : string -> M A) : M A :=
  fun w => match body w with
           | (Normal a, w') => (Normal a, w')
           | (Throw msg, w') => handler msg w'
           end.

Declare Scope js_scope.
Delimit Scope js_scope with js.
Notation "'let*' x := m 'in' k" := (bind m (fun x => k))
  (at level 10, x name, m at level 200, k at level 200) : js_scope.
Notation "'let+' x := c 'in' k" := (cbind c (fun x => k))
  (at level 10, x name, c at level 200, k at level 200) : js_scope.
Notation "m ;;; k" := (bind m (fun _ => k))
  (at level 100, k at level 200, right associativity) : js_scope.

Inductive Route : Type := Today | Upcoming.

Definition route_prefix (r : Route) : string :=
  match r with
  | Today => "matches_today_"
  | Upcoming => "matches_upcoming_from_"
  end.

(** TTL of a route's entries, in seconds. *)
Definition route_ttl (r : Route) : Z :=
  match r with
  | Today => 1800
  | Upcoming => 300
  end.

(** The argument of [getDateString] that yields the date in the key. *)
Definition route_offset (r : Route) : Z :=
  match r with
  | Today => 0
  | Upcoming => 1
  end.

(** What a handler sends: [res.status(s).json(body)]. *)
Record HttpResponse : Type := {
  http_status : Z;
  http_body : gmap string value
}.

Section Server.
Context (env : Env).
Local Open Scope js_scope.

(** [new Date()] and [Date.now()]: the next reading of the clock. *)
Definition clock_read : M Z :=
  fun w => (Normal (env_clock env (ticks w)), tick w).

(** [new Date(s)] for an argument that may be [null] ([new Date(null)]
    is the epoch). *)
Definition new_Date_of (s : option string) : JSDate :=
  match s with
  | Some s => Date_parse (env_other_dates env) s
  | None => Some 0
  end.

(** [new Date().toISOString()] *)
Definition now_iso : M string :=
  let* t := clock_read in lift (toISOString (Some t)).

(** [src/server.js], [getDateString]. *)
Definition getDateString (offset : Z) : M string :=
  let* t := clock_read in
  let d : JSDate := Some t in
  let d := setDate (env_zone env) d
             ((fun n => n + offset) <$> getDate (env_zone env) d) in
  let* s := lift (toISOString d) in
  ret (split_T_0 s).

(** [cache.get(key)] *)
Definition cache_get (key : string) : M value :=
  let* now := clock_read in
  fun w => (Normal (cache_lookup now (cache w) key), w).

(** [cache.set(key, v, ttl)] *)
Definition cache_set (key : string) (v : value) (ttl : Z) : M unit :=
  let* now := clock_read in
  fun w => (Normal tt,
            {| ticks := ticks w;
               cache := <[key := {| ce_value := v; ce_storedAt := now;
                                    ce_ttlSeconds := ttl |}]> (cache w);
               net_log := net_log w; loader_log := loader_log w |}).

(** [await import('node-fetch')] *)
Definition import_node_fetch : M unit :=
  match env_import_error env with
  | Some msg => throw msg
  | None => ret tt
  end.

(** [await fetch(url, options)]: the call is recorded and answered by
    the upstream; a transport failure or a timeout rejects. *)
Definition fetch (req : Request) : M Response :=
  fun w =>
    let w' := {| ticks := ticks w; cache := cache w;
                 net_log := (net_log w ++ [req]);
                 loader_log := loader_log w |} in
    match env_upstream env (length (net_log w)) req with
    | Rejected msg => (Throw msg, w')
    | Responded r => (Normal r, w')
    end.

Definition log_loader_call (dateFrom dateTo : option string)
    (result : gmap string value) : M unit :=
  fun w => (Normal tt,
            {| ticks := ticks w; cache := cache w; net_log := net_log w;
               loader_log :=
                 (loader_log w ++
                    [{| lc_dateFrom := dateFrom; lc_dateTo := dateTo;
                        lc_result := result |}]) |}).

(** Lines 61-77 of [fetchMatches]: the validation of the dates, the
    default upper bound, and the query parameters. *)
Definition build_params (dateFrom dateTo : option string)
    : completion (list (string * string)) :=
  let+ params :=
    (if truthy (opt_value dateFrom) then
       let fromDate := new_Date_of dateFrom in
       if isNaN_date fromDate then Throw "Invalid dateFrom format"
       else Normal [("dateFrom", default "" dateFrom)]
     else Normal []) in
  let+ dateTo :=
    (if truthy (opt_value dateFrom) && negb (truthy (opt_value dateTo)) then
       let to := new_Date_of dateFrom in
       let to := setDate (env_zone env) to
                   ((fun n => n + 5) <$> getDate (env_zone env) to) in
       let+ s := toISOString to in
       Normal (Some (split_T_0 s))
     else Normal dateTo) in
  if truthy (opt_value dateTo) then
    let toDate := new_Date_of dateTo in
    if isNaN_date toDate then Throw "Invalid dateTo format"
    else Normal (params ++ [("dateTo", default "" dateTo)])
  else Normal params.

(** Lines 94-97: the body of a successful answer. *)
Definition select_matches (data : value) : completion (gmap string value) :=
  let+ ms := getProp data "matches" in
  let matches := match ms with VArr xs => xs | _ => [] end in
  let+ filtered := filter_by_status matches in
  Normal (obj_literal [("matches", VArr filtered);
                       ("count", VNum (Z.of_nat (length filtered)));
                       ("totalAvailable", VNum (Z.of_nat (length matches)))]).

(** The [try] block of [fetchMatches]. *)
Definition fetchMatches_try (API_TOKEN : string)
    (dateFrom dateTo : option string) : M (gmap string value) :=
  import_node_fetch ;;;
  let* params := lift (build_params dateFrom dateTo) in
  let* res := fetch {| req_url := "https://api.football-data.org/v4/matches";
                       req_params := params;
                       req_auth_token := API_TOKEN;
                       req_user_agent := "Football-Matches-App/1.0";
                       req_timeout := 10000 |} in
  if negb (res_ok res) then
    let errText := default "Unknown error" (res_text res) in
    throw ("API Error " +:+ pretty (res_status res) +:+ ": " +:+ errText)
  else
    let* data := lift (res_json res) in
    lift (select_matches data).

(** [src/server.js], [fetchMatches]. *)
Definition fetchMatches_body (dateFrom dateTo : option string)
    : M (gmap string value) :=
  if negb (truthy (opt_value (FOOTBALL_API_TOKEN env))) then
    ret (obj_literal [("matches", VArr []); ("count", VNum 0);
                      ("error", VStr "API token missing")])
  else
    try_catch
      (fetchMatches_try (default "" (FOOTBALL_API_TOKEN env)) dateFrom dateTo)
      (fun message =>
         let* ts := now_iso in
         ret (obj_literal [("matches", VArr []); ("count", VNum 0);
                           ("error", VStr message);
                           ("timestamp", VStr ts)])).

(** The loader as the handlers call it: [fetchMatches], with the
    finished call written to the log. *)
Definition fetchMatches (dateFrom dateTo : option string)
    : M (gmap string value) :=
  let* result := fetchMatches_body dateFrom dateTo in
  log_loader_call dateFrom dateTo result ;;;
  ret result.

(** [app.get('/api/matches/today', ...)] *)
Definition today_handler : M HttpResponse :=
  let* today := getDateString 0 in
  let* tomorrow := getDateString 1 in
  let cacheKey := "matches_today_" +:+ today in
  let* cached := cache_get cacheKey in
  if truthy cached then
    let* now := now_iso in
    ret {| http_status := 200;
           http_body := obj_extend (spread cached)
                          [("cached", VBool true); ("cacheTime", VStr now)] |}
  else
    let* data := fetchMatches (Some today) (Some tomorrow) in
    if truthy (field data "error") then
      ret {| http_status := 503;
             http_body := obj_extend data
               [("error", VStr "Service temporarily unavailable")] |}
    else
      cache_set cacheKey (VObj data) 1800 ;;;
      let* now := now_iso in
      ret {| http_status := 200;
             http_body := obj_extend data
               [("cached", VBool false); ("fetchTime", VStr now)] |}.

(** [app.get('/api/matches/upcoming', ...)] *)
Definition upcoming_handler : M HttpResponse :=
  let* tomorrow := getDateString 1 in
  let cacheKey := "matches_upcoming_from_" +:+ tomorrow in
  let* cached := cache_get cacheKey in
  if truthy cached then
    let* now := now_iso in
    ret {| http_status := 200;
           http_body := obj_extend (spread cached)
                          [("cached", VBool true); ("cacheTime", VStr now)] |}
  else
    let* data := fetchMatches (Some tomorrow) None in
    if truthy (field data "error") then
      ret {| http_status := 503;
             http_body := obj_extend data
               [("error", VStr "Service temporarily unavailable")] |}
    else
      cache_set cacheKey (VObj data) 300 ;;;
      let* now := now_iso in
      ret {| http_status := 200;
             http_body := obj_extend data
               [("cached", VBool false); ("fetchTime", VStr now)] |}.

(** [app.get('/health', ...)] *)
Definition health_handler : M HttpResponse :=
  let* now := now_iso in
  ret {| http_status := 200;
         http_body := obj_literal [("status", VStr "UP");
                                   ("timestamp", VStr now)] |}.

(** The periodic check of the store ([checkperiod: 120]): the entries
    that are no longer live are removed. *)
Definition sweep : M unit :=
  let* now := clock_read in
  fun w => (Normal tt,
            {| ticks := ticks w;
               cache := filter (fun kv => live now kv.2 = true) (cache w);
               net_log := net_log w; loader_log := loader_log w |}).

(** [cache.flushAll()], called by [shutdown]. *)
Definition flushAll : M unit :=
  fun w => (Normal tt,
            {| ticks := ticks w; cache := ∅;
               net_log := net_log w; loader_log := loader_log w |}).

(** ** The two routes side by side

    Both handlers derive a key and the loader's arguments from the
    date, then serve the key in the same way. *)

(** The string [getDateString(offset)] computes from the clock reading
    [t]. *)
Definition date_string_of (t offset : Z) : completion string :=
  let d : JSDate := Some t in
  let d := setDate (env_zone env) d
             ((fun n => n + offset) <$> getDate (env_zone env) d) in
  let+ s := toISOString d in
  Normal (split_T_0 s).

Definition route_prelude (r : Route)
    : M (string * (option string * option string)) :=
  match r with
  | Today =>
      let* today := getDateString 0 in
      let* tomorrow := getDateString 1 in
      ret ("matches_today_" +:+ today, (Some today, Some tomorrow))
  | Upcoming =>
      let* tomorrow := getDateString 1 in
      ret ("matches_upcoming_from_" +:+ tomorrow, (Some tomorrow, None))
  end.

(** What both handlers do once the key is known. *)
Definition serve_key (ttl : Z) (cacheKey : string)
    (args : option string * option string) : M HttpResponse :=
  let* cached := cache_get cacheKey in
  if truthy cached then
    let* now := now_iso in
    ret {| http_status := 200;
           http_body := obj_extend (spread cached)
                          [("cached", VBool true); ("cacheTime", VStr now)] |}
  else
    let* data := fetchMatches args.1 args.2 in
    if truthy (field data "error") then
      ret {| http_status := 503;
             http_body := obj_extend data
               [("error", VStr "Service temporarily unavailable")] |}
    else
      cache_set cacheKey (VObj data) ttl ;;;
      let* now := now_iso in
      ret {| http_status := 200;
             http_body := obj_extend data
               [("cached", VBool false); ("fetchTime", VStr now)] |}.

Definition route_handler (r : Route) : M HttpResponse :=
  match r with
  | Today => today_handler
  | Upcoming => upcoming_handler
  end.

(** What the process can do between two observations of its state. *)
Inductive step : World -> World -> Prop :=
  | step_request r w : step w (route_handler r w).2
  | step_health w : step w (health_handler w).2
  | step_sweep w : step w (sweep w).2
  | step_flush w : step w (flushAll w).2.

Definition reachable (w : World) : Prop := rtc step initial_world w.

(** The instant the next observer of the state reads from the clock. *)
Definition now_of (w : World) : Z := env_clock env (ticks w).

End Server.

(** The date part of an ISO string, [YYYY-MM-DD] or [±YYYYYY-MM-DD]. *)
Definition iso_date_of_time (t : Z) : string :=
  string_of_list_ascii (iso_date_chars t).

(** The ISO name of day number [D]. *)
Definition iso_date (D : Z) : string := iso_date_of_time (D * msPerDay).

(** ** Vocabulary of the statements *)

(** The state after the outbound call [req]. *)
Definition with_request (w : World) (req : Request) : World :=
  {| ticks := ticks w; cache := cache w;
     net_log := (net_log w ++ [req]); loader_log := loader_log w |}.

(** The call that [fetchMatches] issues for the query [ps]. *)
Definition matches_request (tok : string) (ps : list (string * string))
    : Request :=
  {| req_url := "https://api.football-data.org/v4/matches";
     req_params := ps; req_auth_token := tok;
     req_user_agent := "Football-Matches-App/1.0"; req_timeout := 10000 |}.

(** The three shapes of a MatchQueryResult. *)
Definition success_result (kept : list value) (total : nat)
    : gmap string value :=
  obj_literal [("matches", VArr kept);
               ("count", VNum (Z.of_nat (length kept)));
               ("totalAvailable", VNum (Z.of_nat total))].

Definition token_missing_result : gmap string value :=
  obj_literal [("matches", VArr []); ("count", VNum 0);
               ("error", VStr "API token missing")].

Definition error_result (message timestamp : string) : gmap string value :=
  obj_literal [("matches", VArr []); ("count", VNum 0);
               ("error", VStr message); ("timestamp", VStr timestamp)].

(** The status of a match is one of the four wanted ones. *)
Definition has_wanted_status (m : value) : bool :=
  match getProp m "status" with
  | Normal st => includes wanted_statuses st
  | Throw _ => false
  end.

Definition wanted_status (m : value) : Prop :=
  exists s, getProp m "status" = Normal (VStr s) /\ In s wanted_statuses.

(** A JSON value whose properties can be read: anything but [null]
    ([undefined] is not JSON). *)
Definition readable (v : value) : Prop := v <> VNull /\ v <> VUndef.

Inductive result_shape (o : gmap string value) : Prop :=
  | shape_success kept total :
      o = success_result kept total -> Forall wanted_status kept ->
      result_shape o
  | shape_token_missing : o = token_missing_result -> result_shape o
  | shape_error message timestamp :
      o = error_result message timestamp -> result_shape o.

(** An outbound call without an upper bound on the date range. *)
Definition unbounded_above (req : Request) : Prop :=
  forall v, ("dateTo", v) ∉ req_params req.

(** ** Environments used in the examples *)

(** One reading per second from 2024-03-09T16:00:00Z on. *)
Definition demo_clock (n : nat) : Z := 1710000000000 + 1000 * Z.of_nat n.

(** An upstream that answers every call with a 200 and the JSON [body]. *)
Definition respond_json (body : value) : nat -> Request -> FetchOutcome :=
  fun _ _ => Responded {| res_status := 200; res_text := None;
                          res_json := Normal body |}.

(** An upstream that answers every call with [status] and a text body. *)
Definition respond_status (status : Z) (text : string)
    : nat -> Request -> FetchOutcome :=
  fun _ _ => Responded {| res_status := status; res_text := Some text;
                          res_json := Throw "Unexpected token" |}.

Definition demo_env (zone : TimeZone) (token : option string)
    (clock : nat -> Z) (upstream : nat -> Request -> FetchOutcome) : Env :=
  {| env_zone := zone;
     env_other_dates := fun _ => None;
     FOOTBALL_API_TOKEN := token;
     env_clock := clock;
     env_import_error := None;
     env_upstream := upstream |}.

Definition two_matches : value :=
  VObj {[ "matches" :=
            VArr [VObj {[ "status" := VStr "LIVE" ]};
                  VObj {[ "status" := VStr "FINISHED" ]}] ]}.

Definition utc_env : Env :=
  demo_env (fixed_zone 0) (Some "k") demo_clock (respond_json two_matches).

Definition no_token_env : Env :=
  demo_env (fixed_zone 0) None demo_clock (respond_json two_matches).

Definition failing_env : Env :=
  demo_env (fixed_zone 0) (Some "k") demo_clock (respond_status 500 "down").

Definition null_body_env : Env :=
  demo_env (fixed_zone 0) (Some "k") demo_clock (respond_json VNull).

Definition no_matches_env : Env :=
  demo_env (fixed_zone 0) (Some "k") demo_clock
    (respond_json (VObj {[ "message" := VStr "none" ]})).

(** US Eastern time in 2024: UTC-5, and UTC-4 from 2024-03-10T07:00Z to
    2024-11-03T06:00Z. *)
Definition new_york_2024 : TimeZone :=
  {| tz_offset_utc := fun t =>
       if (1710054000000 <=? t) && (t <? 1730613600000)
       then -14400000 else -18000000;
     tz_offset_local := fun t =>
       if (1710039600000 <=? t) && (t <? 1730599200000)
       then -14400000 else -18000000 |}.

Definition new_york_env : Env :=
  demo_env new_york_2024 (Some "k") demo_clock (respond_json two_matches).

(** Five readings at 2024-03-09T23:50Z, the following ones a quarter of
    an hour later, after the date has changed. *)
Definition midnight_clock (n : nat) : Z :=
  if (n <? 5)%nat then 1710028200000 + Z.of_nat n
  else 1710029100000 + Z.of_nat n.

Definition midnight_env : Env :=
  demo_env (fixed_zone 0) (Some "k") midnight_clock (respond_json two_matches).

(** Five readings at 16:00Z, the following ones an hour later on the
    same day. *)
Definition late_clock (n : nat) : Z :=
  if (n <? 5)%nat then 1710000000000 + Z.of_nat n
  else 1710003600000 + Z.of_nat n.

Definition late_env : Env :=
  demo_env (fixed_zone 0) (Some "k") late_clock (respond_json two_matches).

(** The response of a finished run of a handler. *)
Definition response_of (run : completion HttpResponse * World) : HttpResponse :=
  match run.1 with
  | Normal resp => resp
  | Throw _ => {| http_status := 0; http_body := ∅ |}
  end.

(** The latest call in the loader's log. *)
Definition last_call (w : World) : LoaderCall :=
  List.last (loader_log w)
    {| lc_dateFrom := None; lc_dateTo := None; lc_result := ∅ |}.

(** The state after one request to the today route while the upstream
    is down, and after a second one. *)
Definition failed_once : World :=
  (route_handler failing_env Today initial_world).2.

Definition failed_twice : World :=
  (route_handler failing_env Today failed_once).2.

(** The state after one served request to the today route, with the clock
    of [utc_env] and with the clock that jumps ahead by an hour. *)
Definition served_once : World :=
  (route_handler utc_env Today initial_world).2.

Definition served_long_ago : World :=
  (route_handler late_env Today initial_world).2.

(** The state after one request to the today route shortly before
    midnight and a second one shortly after. *)
Definition after_midnight : World :=
  (route_handler midnight_env Today
     (route_handler midnight_env Today initial_world).2).2.

(** The claim that each route has at most one live entry. *)
Definition one_live_entry_per_route (env : Env) (w : World) : Prop :=
  forall r d1 d2 e1 e2,
    cache w !! (route_prefix r +:+ d1) = Some e1 ->
    cache w !! (route_prefix r +:+ d2) = Some e2 ->
    live (now_of env w) e1 = true -> live (now_of env w) e2 = true ->
    d1 = d2.

(** Where an entry of the store comes from: the key is a route's prefix
    followed by the date string that a handler computed from clock
    reading [n0], and the value is a result without [error] that was
    stored at a later reading [n1] with the route's TTL. *)
Definition entry_provenance (env : Env) (w : World) (k : string)
    (e : CacheEntry) : Prop :=
  exists r n0 n1 d o,
    (n0 <= n1 < ticks w)%nat
    /\ date_string_of env (env_clock env n0) (route_offset r) = Normal d
    /\ k = route_prefix r +:+ d
    /\ ce_storedAt e = env_clock env n1
    /\ ce_ttlSeconds e = route_ttl r
    /\ ce_value e = VObj o
    /\ truthy (field o "error") = false.

Definition cache_inv (env : Env) (w : World) : Prop :=
  forall k e, cache w !! k = Some e -> entry_provenance env w k e.

(** An upstream that cannot be reached: every call is rejected. *)
Definition unreachable_env : Env :=
  demo_env (fixed_zone 0) (Some "k") demo_clock
    (fun _ _ => Rejected "request to upstream failed").

(** A host five and a half hours ahead of UTC. *)
Definition kolkata_env : Env :=
  demo_env (fixed_zone 19800000) (Some "k") demo_clock
    (respond_json two_matches).

(** ** Cross-origin policy and error middleware *)

(** What the error middleware reads of an error: its [message], its
    [status] ([None] when absent) and its [stack]. *)
Record JsError : Type := {
  err_message : string;
  err_status : option Z;
  err_stack : string
}.

Definition allowed_origins : list string :=
  ["http://localhost:3000"; "http://127.0.0.1:3000"; "http://localhost:5500"].

(** The [origin] function given to [cors] (lines 27-35):
    [callback(null, true)] is [Normal true], [callback(new Error(m))] is
    [Throw m]. *)
Definition cors_origin (origin : option string) : completion bool :=
  if negb (truthy (opt_value origin)) then Normal true
  else if existsb (String.eqb (default "" origin)) allowed_origins
       then Normal true
       else Throw "Not allowed by CORS".

(** [err.status || 500] *)
Definition error_status (err : JsError) : Z :=
  match err_status err with
  | Some n => if n =? 0 then 500 else n
  | None => 500
  end.

(** The global error handler (lines 179-187); [node_env] is
    [process.env.NODE_ENV]. *)
Definition global_error_handler (node_env : option string) (err : JsError)
    : HttpResponse :=
  let isDev :=
    match node_env with
    | Some s => String.eqb s "development"
    | None => false
    end in
  {| http_status := error_status err;
     http_body :=
       obj_extend
         (obj_literal
            [("error", VStr "Internal server error");
             ("message",
              VStr (if isDev then err_message err
                    else "Something went wrong"))])
         (if isDev then [("stack", VStr (err_stack err))] else []) |}.

(** The CORS error handler (lines 155-160), with [next(err)] leading to
    the global error handler, the only error middleware after it. *)
Definition error_middleware (node_env : option string) (err : JsError)
    : HttpResponse :=
  if String.eqb (err_message err) "Not allowed by CORS" then
    {| http_status := 403;
       http_body := obj_literal [("error", VStr "CORS policy violation")] |}
  else global_error_handler node_env err.

(** Every stored value is a result of the loader. *)
Definition stored_results (w : World) : Prop :=
  forall k e, cache w !! k = Some e ->
    exists o, ce_value e = VObj o /\ result_shape o.


(** ** Checks over one 400-year cycle *)

(** The calendar facts about day [z] that are checked by evaluation
    over the 146097 days of one cycle. *)
Definition cycle_day_ok (z : Z) : bool :=
  let '(y, m, d) := civil_from_days z in
  (0 <=? y) && (y <=? 400) && (1 <=? m) && (m <=? 12) && (1 <=? d)
  && (d <=? DaysInMonth y m) && (days_from_civil y m d =? z).

(** [f] holds on the [len] integers from [lo] on. *)
Fixpoint all_in_range (f : Z -> bool) (lo : Z) (len : positive) : bool :=
  match len with
  | xH => f lo
  | xO p => all_in_range f lo p && all_in_range f (lo + Z.pos p) p
  | xI p =>
      f lo && all_in_range f (lo + 1) p && all_in_range f (lo + 1 + Z.pos p) p
  end.

(** The character of digit [n] reads back as [n] and is not the
    separator of an ISO string. *)
Definition digit_ok (n : Z) : bool :=
  match digit_val (digit n) with
  | Some m => (m =? n) && negb (Ascii.eqb (digit n) "T")
  | None => false
  end.

(* ===================================================================== *)
(** * Part II: lemmas and theorems                                        *)
(* ===================================================================== *)

(** ** The civil calendar *)

Lemma all_in_range_spec f len : forall lo z,
  all_in_range f lo len = true -> lo <= z < lo + Z.pos len -> f z = true.
Proof.
  induction len as [p IH|p IH|]; simpl; intros lo z Hall Hz.
  - apply andb_prop in Hall as [Hall H2]. apply andb_prop in Hall as [H0 H1].
    destruct (decide (z = lo)) as [->|Hne]; [exact H0|].
    destruct (decide (z < lo + 1 + Z.pos p)).
    + apply (IH (lo + 1)); [exact H1|lia].
    + apply (IH (lo + 1 + Z.pos p)); [exact H2|lia].
  - apply andb_prop in Hall as [H1 H2].
    destruct (decide (z < lo + Z.pos p)).
    + apply (IH lo); [exact H1|lia].
    + apply (IH (lo + Z.pos p)); [exact H2|lia].
  - replace z with lo by lia. exact Hall.
Qed.

Lemma first_cycle_ok : all_in_range cycle_day_ok (-719468) 146097 = true.
Proof. vm_cast_no_check (eq_refl true). Qed.

Lemma civil_from_days_shift z e :
  civil_from_days (z + 146097 * e)
  = let '(y, m, d) := civil_from_days z in (y + 400 * e, m, d).
Proof.
  unfold civil_from_days.
  replace (z + 146097 * e + 719468) with (z + 719468 + e * 146097) by lia.
  rewrite Z.div_add, Z.mod_add by lia.
  f_equal. f_equal. lia.
Qed.

Lemma days_from_civil_shift y m d e :
  days_from_civil (y + 400 * e) m d = days_from_civil y m d + 146097 * e.
Proof.
  unfold days_from_civil.
  assert (Hy : (if m <=? 2 then y + 400 * e - 1 else y + 400 * e)
               = (if m <=? 2 then y - 1 else y) + e * 400)
    by (destruct (m <=? 2); lia).
  rewrite Hy, Z.div_add, Z.mod_add by lia. lia.
Qed.

Lemma isLeapYear_shift y e : isLeapYear (y + 400 * e) = isLeapYear y.
Proof.
  unfold isLeapYear.
  replace ((y + 400 * e) mod 4) with (y mod 4)
    by (replace (y + 400 * e) with (y + (100 * e) * 4) by lia;
        now rewrite Z.mod_add by lia).
  replace ((y + 400 * e) mod 100) with (y mod 100)
    by (replace (y + 400 * e) with (y + (4 * e) * 100) by lia;
        now rewrite Z.mod_add by lia).
  replace ((y + 400 * e) mod 400) with (y mod 400)
    by (replace (y + 400 * e) with (y + e * 400) by lia;
        now rewrite Z.mod_add by lia).
  reflexivity.
Qed.

Lemma DaysInMonth_shift y m e : DaysInMonth (y + 400 * e) m = DaysInMonth y m.
Proof. unfold DaysInMonth. now rewrite isLeapYear_shift. Qed.

(** Every day number is a valid calendar date, and the two conversions
    are inverse to each other on it. *)
Lemma civil_from_days_valid z y m d :
  civil_from_days z = (y, m, d) ->
  1 <= m <= 12 /\ 1 <= d <= DaysInMonth y m /\ days_from_civil y m d = z
  /\ 400 * ((z + 719468) / 146097) <= y <= 400 * ((z + 719468) / 146097) + 400.
Proof.
  intros Hc.
  set (e := (z + 719468) / 146097).
  set (z0 := z - 146097 * e).
  assert (Hz0 : 0 <= z0 + 719468 < 146097).
  { pose proof (Z.div_mod (z + 719468) 146097 ltac:(lia)) as Hdm.
    pose proof (Z.mod_pos_bound (z + 719468) 146097 ltac:(lia)).
    unfold z0, e. lia. }
  pose proof (all_in_range_spec _ _ _ z0 first_cycle_ok ltac:(lia)) as Hok.
  unfold cycle_day_ok in Hok.
  assert (Hz : z = z0 + 146097 * e) by (unfold z0; lia).
  rewrite Hz, civil_from_days_shift in Hc.
  destruct (civil_from_days z0) as [[y0 m0] d0].
  injection Hc as <- <- <-.
  repeat (apply andb_prop in Hok as [Hok ?]).
  rewrite DaysInMonth_shift, days_from_civil_shift.
  lia.
Qed.

Lemma days_from_civil_day y m d k :
  days_from_civil y m (d + k) = days_from_civil y m d + k.
Proof. unfold days_from_civil. lia. Qed.

(** [MakeDay] on the fields of a day, moved by [k] days. *)
Lemma MakeDay_of_fields t k :
  MakeDay (YearFromTime t) (MonthFromTime t) (DateFromTime t + k) = Day t + k.
Proof.
  unfold MakeDay, YearFromTime, MonthFromTime, DateFromTime.
  destruct (civil_from_days (Day t)) as [[y m] d] eqn:Hc. simpl.
  apply civil_from_days_valid in Hc as (Hm & _ & Hd & _).
  rewrite (Z.div_small (m - 1) 12), (Z.mod_small (m - 1) 12) by lia.
  replace (y + 0) with y by lia. replace (m - 1 + 1) with m by lia.
  replace 1 with (d + (1 - d)) at 1 by lia.
  rewrite days_from_civil_day. lia.
Qed.

(** ** Formatting and parsing dates *)

Lemma digits_ok : all_in_range digit_ok 0 10 = true.
Proof. vm_compute. reflexivity. Qed.

Lemma digit_val_digit n : 0 <= n <= 9 -> digit_val (digit n) = Some n.
Proof.
  intros Hn.
  pose proof (all_in_range_spec _ _ _ n digits_ok ltac:(lia)) as Hok.
  unfold digit_ok in Hok.
  destruct (digit_val (digit n)) as [m|]; [|discriminate].
  apply andb_prop in Hok as [Hm _]. f_equal. lia.
Qed.

Lemma digit_not_T n : 0 <= n <= 9 -> Ascii.eqb (digit n) "T" = false.
Proof.
  intros Hn.
  pose proof (all_in_range_spec _ _ _ n digits_ok ltac:(lia)) as Hok.
  unfold digit_ok in Hok.
  destruct (digit_val (digit n)) as [m|]; [|discriminate].
  apply andb_prop in Hok as [_ Ht]. now apply negb_true_iff in Ht.
Qed.

Lemma mod10_digit n : 0 <= n mod 10 <= 9.
Proof. pose proof (Z.mod_pos_bound n 10 ltac:(lia)). lia. Qed.

Lemma number_of_digits2 n :
  0 <= n < 100 -> number_of_digits (digits2 n) = Some n.
Proof.
  intros Hn. unfold number_of_digits, digits2. simpl.
  rewrite !digit_val_digit by apply mod10_digit.
  simpl. f_equal. Z.to_euclidean_division_equations. lia.
Qed.

Lemma number_of_digits4 n :
  0 <= n < 10000 -> number_of_digits (digits4 n) = Some n.
Proof.
  intros Hn. unfold number_of_digits, digits4, digits3, digits2. simpl.
  rewrite !digit_val_digit by apply mod10_digit.
  simpl. f_equal. Z.to_euclidean_division_equations. lia.
Qed.

Lemma number_of_digits6 n :
  0 <= n < 1000000 -> number_of_digits (digits6 n) = Some n.
Proof.
  intros Hn. unfold number_of_digits, digits6, digits4, digits3, digits2. simpl.
  rewrite !digit_val_digit by apply mod10_digit.
  simpl. f_equal. Z.to_euclidean_division_equations. lia.
Qed.

Lemma parse_iso_date_short y1 y2 y3 y4 m1 m2 d1 d2 :
  parse_iso_date
    (string_of_list_ascii [y1; y2; y3; y4; "-"; m1; m2; "-"; d1; d2]%char)
  = (y ← number_of_digits [y1; y2; y3; y4];
     m ← number_of_digits [m1; m2];
     d ← number_of_digits [d1; d2];
     date_only_time y m d).
Proof.
  unfold parse_iso_date. rewrite list_ascii_of_string_of_list_ascii.
  reflexivity.
Qed.

Lemma parse_iso_date_long sg y1 y2 y3 y4 y5 y6 m1 m2 d1 d2 :
  parse_iso_date
    (string_of_list_ascii
       [sg; y1; y2; y3; y4; y5; y6; "-"; m1; m2; "-"; d1; d2]%char)
  = (y ← number_of_digits [y1; y2; y3; y4; y5; y6];
     m ← number_of_digits [m1; m2];
     d ← number_of_digits [d1; d2];
     if Ascii.eqb sg "+" then date_only_time y m d
     else if Ascii.eqb sg "-" && negb (y =? 0) then date_only_time (- y) m d
     else None).
Proof.
  unfold parse_iso_date. rewrite list_ascii_of_string_of_list_ascii.
  reflexivity.
Qed.

Lemma Day_bounds t :
  Z.abs t <= maxTime -> -100000000 <= Day t <= 100000000.
Proof.
  unfold maxTime, Day, msPerDay. intros H.
  Z.to_euclidean_division_equations. lia.
Qed.

Lemma date_only_time_of_day z y m d :
  civil_from_days z = (y, m, d) -> -100000000 <= z <= 100000000 ->
  date_only_time y m d = Some (z * msPerDay)
  /\ -999999 <= y <= 999999 /\ 1 <= m <= 12 /\ 1 <= d <= 31.
Proof.
  intros Hc Hz.
  apply civil_from_days_valid in Hc as (Hm & Hd & Hinv & Hy).
  assert (Hd31 : DaysInMonth y m <= 31).
  { unfold DaysInMonth. repeat case_match; lia. }
  assert (He : -680 <= (z + 719468) / 146097 <= 690)
    by (Z.to_euclidean_division_equations; lia).
  repeat split; try lia.
  unfold date_only_time.
  replace ((1 <=? m) && (m <=? 12) && (1 <=? d) && (d <=? DaysInMonth y m))
    with true by (symmetry; repeat (apply andb_true_intro; split); lia).
  unfold MakeDay, MakeDate.
  rewrite (Z.div_small (m - 1) 12), (Z.mod_small (m - 1) 12) by lia.
  replace (y + 0) with y by lia. replace (m - 1 + 1) with m by lia.
  replace (days_from_civil y m 1 + d - 1) with (days_from_civil y m d)
    by (unfold days_from_civil; lia).
  rewrite Hinv. unfold TimeClip, maxTime, msPerDay.
  case_match; [f_equal; lia | lia].
Qed.

Lemma parse_iso_date_roundtrip t :
  Z.abs t <= maxTime ->
  parse_iso_date (iso_date_of_time t) = Some (Day t * msPerDay).
Proof.
  intros Ht. apply Day_bounds in Ht.
  unfold iso_date_of_time, iso_date_chars, YearFromTime, MonthFromTime,
    DateFromTime.
  destruct (civil_from_days (Day t)) as [[y m] d] eqn:Hc. simpl.
  destruct (date_only_time_of_day _ _ _ _ Hc Ht) as (Hp & Hy & Hm & Hd).
  replace (m - 1 + 1) with m by lia.
  unfold iso_year.
  destruct ((0 <=? y) && (y <=? 9999)) eqn:Hrange.
  - apply andb_prop in Hrange as [? ?].
    unfold digits4, digits3, digits2. cbn [app].
    rewrite parse_iso_date_short.
    pose proof (number_of_digits4 y ltac:(lia)) as Hy4.
    pose proof (number_of_digits2 m ltac:(lia)) as Hm2.
    pose proof (number_of_digits2 d ltac:(lia)) as Hd2.
    unfold digits4, digits3, digits2 in Hy4, Hm2, Hd2.
    rewrite Hy4, Hm2, Hd2. simpl. exact Hp.
  - assert (Hy' : y < 0 \/ 9999 < y).
    { destruct (0 <=? y) eqn:?, (y <=? 9999) eqn:?; simpl in Hrange; try lia. }
    unfold digits6, digits4, digits3, digits2. cbn [app].
    rewrite parse_iso_date_long.
    pose proof (number_of_digits6 (Z.abs y) ltac:(lia)) as Hy6.
    pose proof (number_of_digits2 m ltac:(lia)) as Hm2.
    pose proof (number_of_digits2 d ltac:(lia)) as Hd2.
    unfold digits6, digits4, digits3, digits2 in Hy6, Hm2, Hd2.
    rewrite Hy6, Hm2, Hd2. simpl.
    destruct (y <? 0) eqn:Hneg.
    + simpl. replace (Z.abs y =? 0) with false by lia. simpl.
      replace (- Z.abs y) with y by lia. exact Hp.
    + simpl. replace (Z.abs y) with y by lia. exact Hp.
Qed.

Lemma take_until_app_sep sep l r :
  Forall (fun c => Ascii.eqb c sep = false) l ->
  take_until sep (l ++ sep :: r) = l.
Proof.
  induction 1 as [|c l Hc _ IH]; simpl.
  - now rewrite Ascii.eqb_refl.
  - now rewrite Hc, IH.
Qed.

Lemma iso_date_chars_no_T t :
  Forall (fun c => Ascii.eqb c "T" = false) (iso_date_chars t).
Proof.
  unfold iso_date_chars, iso_year, digits6, digits4, digits3, digits2.
  repeat case_match; cbn [app];
    repeat first [apply Forall_cons; split | apply Forall_nil];
    try (apply digit_not_T, mod10_digit); reflexivity.
Qed.

(** [toISOString().split('T')[0]] is the date part of the string. *)
Lemma toISOString_split t :
  exists s, toISOString (Some t) = Normal s /\ split_T_0 s = iso_date_of_time t.
Proof.
  eexists. split; [reflexivity|].
  unfold split_T_0, iso_date_of_time, iso_string.
  rewrite list_ascii_of_string_of_list_ascii.
  now rewrite take_until_app_sep by apply iso_date_chars_no_T.
Qed.

Lemma iso_date_nonempty t : String.eqb (iso_date_of_time t) "" = false.
Proof.
  unfold iso_date_of_time, iso_date_chars, iso_year, digits4.
  case_match; reflexivity.
Qed.

(** A date string printed by [toISOString] is read back as UTC midnight
    of its day, whatever the engine does with other formats. *)
Lemma Date_parse_iso_date other t :
  Z.abs t <= maxTime ->
  Date_parse other (iso_date_of_time t) = Some (Day t * msPerDay).
Proof.
  intros Ht. unfold Date_parse.
  now rewrite iso_date_nonempty, parse_iso_date_roundtrip.
Qed.

(** With a fixed offset, [d.setDate(d.getDate() + k)] moves [d] by
    exactly [k] days. *)
Lemma setDate_fixed_zone off t k :
  setDate (fixed_zone off) (Some t)
          ((fun n => n + k) <$> getDate (fixed_zone off) (Some t))
  = TimeClip (t + k * msPerDay).
Proof.
  unfold setDate, getDate, LocalTime, UTC. simpl.
  rewrite MakeDay_of_fields. f_equal.
  unfold MakeDate, Day, TimeWithinDay, msPerDay.
  Z.to_euclidean_division_equations. lia.
Qed.

Lemma TimeClip_in_range t : Z.abs t <= maxTime -> TimeClip t = Some t.
Proof. unfold TimeClip. intros H. case_match; [reflexivity|lia]. Qed.

Lemma getDateString_fixed_zone env off k w :
  env_zone env = fixed_zone off ->
  Z.abs (now_of env w + k * msPerDay) <= maxTime ->
  getDateString env k w
  = (Normal (iso_date_of_time (now_of env w + k * msPerDay)), tick w).
Proof.
  intros Hz Hr. unfold getDateString, bind, clock_read, lift, ret.
  rewrite Hz, setDate_fixed_zone, TimeClip_in_range by exact Hr.
  destruct (toISOString_split (env_clock env (ticks w) + k * msPerDay))
    as (s & -> & ->).
  reflexivity.
Qed.

Lemma iso_date_of_day t : Z.abs t <= maxTime ->
  Z.abs (Day t * msPerDay) <= maxTime /\ Day (Day t * msPerDay) = Day t.
Proof.
  unfold Day, msPerDay, maxTime. intros H.
  Z.to_euclidean_division_equations. lia.
Qed.

(** The default upper bound on a host with a fixed UTC offset: five days
    after [dateFrom]. *)
Lemma build_params_default_fixed_zone env off D :
  env_zone env = fixed_zone off ->
  Z.abs (D * msPerDay) <= maxTime -> Z.abs ((D + 5) * msPerDay) <= maxTime ->
  build_params env (Some (iso_date D)) None
  = Normal [("dateFrom", iso_date D); ("dateTo", iso_date (D + 5))].
Proof.
  intros Hz HD HD5. unfold build_params, new_Date_of, iso_date.
  assert (HDay : forall n, Day (n * msPerDay) = n)
    by (intros n; unfold Day, msPerDay; now rewrite Z.div_mul).
  cbn [opt_value truthy]. rewrite !iso_date_nonempty. cbn [negb andb].
  rewrite Date_parse_iso_date, HDay by exact HD. cbn [isNaN_date cbind].
  rewrite Hz, setDate_fixed_zone.
  replace (D * msPerDay + 5 * msPerDay) with ((D + 5) * msPerDay) by lia.
  rewrite TimeClip_in_range by exact HD5.
  destruct (toISOString_split ((D + 5) * msPerDay)) as (s & Hs & Hsp).
  rewrite Hs. cbn [cbind opt_value truthy]. rewrite Hsp.
  rewrite iso_date_nonempty. cbn [negb].
  rewrite Date_parse_iso_date, HDay by exact HD5.
  reflexivity.
Qed.

(** ** The fetcher *)

Lemma fetchMatches_try_unfold env tok a b w :
  fetchMatches_try env tok a b w =
  match env_import_error env with
  | Some msg => (Throw msg, w)
  | None =>
      match build_params env a b with
      | Throw msg => (Throw msg, w)
      | Normal ps =>
          let req := matches_request tok ps in
          let w' := with_request w req in
          match env_upstream env (length (net_log w)) req with
          | Rejected msg => (Throw msg, w')
          | Responded r =>
              if res_ok r then
                match res_json r with
                | Throw msg => (Throw msg, w')
                | Normal data => (select_matches data, w')
                end
              else (Throw ("API Error " +:+ pretty (res_status r) +:+ ": "
                           +:+ default "Unknown error" (res_text r)), w')
          end
      end
  end.
Proof.
  unfold fetchMatches_try, import_node_fetch, bind, lift, fetch, throw, ret,
    matches_request, with_request.
  destruct (env_import_error env); [reflexivity|].
  destruct (build_params env a b); [|reflexivity].
  cbv zeta.
  destruct (env_upstream env _ _) as [msg|r]; [reflexivity|].
  destruct (res_ok r); cbn [negb]; [|reflexivity].
  destruct (res_json r); reflexivity.
Qed.

Lemma includes_wanted st :
  includes wanted_statuses st = true ->
  exists s, st = VStr s /\ In s wanted_statuses.
Proof.
  destruct st; cbn [includes]; try discriminate.
  intros H. exists s. split; [reflexivity|].
  apply existsb_exists in H as (x & Hin & Heq).
  apply String.eqb_eq in Heq. now subst.
Qed.

Lemma has_wanted_status_spec m :
  has_wanted_status m = true -> wanted_status m.
Proof.
  unfold has_wanted_status, wanted_status.
  destruct (getProp m "status") as [st|] eqn:Hst; [|discriminate].
  intros H. apply includes_wanted in H as (s & -> & Hin). eauto.
Qed.

Lemma getProp_readable v k : readable v -> exists x, getProp v k = Normal x.
Proof. intros [? ?]. destruct v; simpl; eauto; congruence. Qed.

(** The filter keeps exactly the matches with a wanted status, provided
    every element of the list can be read. *)
Lemma filter_by_status_readable ms :
  Forall readable ms ->
  filter_by_status ms = Normal (List.filter has_wanted_status ms).
Proof.
  induction 1 as [|m ms Hm _ IH]; [reflexivity|].
  simpl. unfold has_wanted_status.
  destruct (getProp_readable m "status" Hm) as (st & ->).
  rewrite IH. reflexivity.
Qed.

Lemma filter_by_status_wanted ms kept :
  filter_by_status ms = Normal kept -> Forall wanted_status kept.
Proof.
  revert kept. induction ms as [|m ms IH]; simpl; intros kept H.
  - injection H as <-. constructor.
  - destruct (getProp m "status") as [st|] eqn:Hst; [|discriminate].
    destruct (filter_by_status ms) as [kept'|]; [|discriminate].
    injection H as <-.
    destruct (includes wanted_statuses st) eqn:Hinc; [|now apply IH].
    constructor; [|now apply IH].
    apply includes_wanted in Hinc as (s & -> & Hin). exists s. eauto.
Qed.

Lemma select_matches_shape data o :
  select_matches data = Normal o -> result_shape o.
Proof.
  unfold select_matches, cbind.
  destruct (getProp data "matches") as [ms|]; [|discriminate].
  destruct (filter_by_status _) as [kept|] eqn:Hf; [|discriminate].
  intros H. injection H as <-.
  eapply shape_success; [reflexivity|]. eapply filter_by_status_wanted, Hf.
Qed.

(** The state after the loader has logged a call. *)
Lemma fetchMatches_eq env a b w :
  fetchMatches env a b w =
  match fetchMatches_body env a b w with
  | (Normal o, w') =>
      (Normal o,
       {| ticks := ticks w'; cache := cache w'; net_log := net_log w';
          loader_log := loader_log w' ++
            [{| lc_dateFrom := a; lc_dateTo := b; lc_result := o |}] |})
  | (Throw msg, w') => (Throw msg, w')
  end.
Proof.
  unfold fetchMatches, bind, log_loader_call, ret.
  destruct (fetchMatches_body env a b w) as [[o|msg] w']; reflexivity.
Qed.

(** [fetchMatches] never throws: every path ends in one of the three
    result shapes.  The store is left alone, the outbound calls and the
    clock readings only grow. *)
Lemma fetchMatches_body_total env a b w :
  exists o w', fetchMatches_body env a b w = (Normal o, w')
    /\ result_shape o /\ cache w' = cache w
    /\ loader_log w' = loader_log w
    /\ (ticks w <= ticks w')%nat
    /\ (exists reqs, net_log w' = net_log w ++ reqs).
Proof.
  unfold fetchMatches_body.
  destruct (truthy (opt_value (FOOTBALL_API_TOKEN env))); cbn [negb].
  - unfold try_catch. rewrite fetchMatches_try_unfold.
    assert (Hcatch : forall msg w0, cache w0 = cache w ->
              loader_log w0 = loader_log w ->
              ticks w0 = ticks w ->
              (exists reqs, net_log w0 = net_log w ++ reqs) ->
              exists o w',
                (let '(c, w1) := (@Throw (gmap string value) msg, w0) in
                 match c with
                 | Normal a0 => (Normal a0, w1)
                 | Throw m =>
                     bind (now_iso env)
                       (fun ts => ret (obj_literal
                          [("matches", VArr []); ("count", VNum 0);
                           ("error", VStr m); ("timestamp", VStr ts)])) w1
                 end) = (Normal o, w')
                /\ result_shape o /\ cache w' = cache w
                /\ loader_log w' = loader_log w /\ (ticks w <= ticks w')%nat
                /\ (exists reqs, net_log w' = net_log w ++ reqs)).
    { intros msg w0 Hc Hl Ht Hn. cbv beta iota.
      unfold bind, now_iso, clock_read, lift, ret, bind. simpl.
      eexists _, _. split; [reflexivity|].
      split; [eapply shape_error; reflexivity|].
      simpl. repeat split; try assumption. lia. }
    assert (Hself : exists reqs, net_log w = net_log w ++ reqs)
      by (exists []; now rewrite app_nil_r).
    destruct (env_import_error env) as [msg|]; [now apply Hcatch|].
    destruct (build_params env a b) as [ps|msg]; [|now apply Hcatch].
    cbv zeta.
    assert (Hreq : exists reqs,
              net_log (with_request w (matches_request (default "" (FOOTBALL_API_TOKEN env)) ps))
              = net_log w ++ reqs) by (eexists; reflexivity).
    destruct (env_upstream env _ _) as [msg|r]; [now apply Hcatch|].
    destruct (res_ok r); [|now apply Hcatch].
    destruct (res_json r) as [data|msg]; [|now apply Hcatch].
    destruct (select_matches data) as [o|msg] eqn:Hsel; [|now apply Hcatch].
    eexists _, _. split; [reflexivity|].
    split; [eapply select_matches_shape, Hsel|].
    simpl. repeat split; try reflexivity; try lia. exact Hreq.
  - eexists _, _. split; [reflexivity|].
    split; [apply shape_token_missing; reflexivity|].
    repeat split; try reflexivity; try lia. exists []. now rewrite app_nil_r.
Qed.

Lemma fetchMatches_total env a b w :
  exists o w', fetchMatches env a b w = (Normal o, w')
    /\ result_shape o /\ cache w' = cache w
    /\ loader_log w' = loader_log w ++
         [{| lc_dateFrom := a; lc_dateTo := b; lc_result := o |}]
    /\ (ticks w <= ticks w')%nat
    /\ (exists reqs, net_log w' = net_log w ++ reqs).
Proof.
  rewrite fetchMatches_eq.
  destruct (fetchMatches_body_total env a b w)
    as (o & w' & -> & Hs & Hc & Hl & Ht & Hn).
  eexists _, _. split; [reflexivity|]. simpl. rewrite Hl. auto.
Qed.

(** ** The handlers *)

Lemma getDateString_eq env k w :
  getDateString env k w = (date_string_of env (now_of env w) k, tick w).
Proof.
  unfold getDateString, date_string_of, bind, clock_read, lift, ret, now_of,
    cbind.
  destruct (toISOString _); reflexivity.
Qed.

Lemma now_iso_eq env w :
  now_iso env w = (Normal (iso_string (now_of env w)), tick w).
Proof. reflexivity. Qed.

Lemma cache_get_eq env key w :
  cache_get env key w
  = (Normal (cache_lookup (now_of env w) (cache w) key), tick w).
Proof. reflexivity. Qed.

(** The prelude reads the clock once or twice and changes nothing
    else. *)
Lemma route_prelude_world env r w c wa :
  route_prelude env r w = (c, wa) ->
  cache wa = cache w /\ net_log wa = net_log w
  /\ loader_log wa = loader_log w /\ (ticks w < ticks wa)%nat.
Proof.
  destruct r; unfold route_prelude, bind, ret; rewrite getDateString_eq.
  - destruct (date_string_of env (now_of env w) 0).
    + rewrite getDateString_eq.
      destruct (date_string_of env (now_of env (tick w)) 1);
        intros [= <- <-]; simpl; repeat split; lia.
    + intros [= <- <-]; simpl; repeat split; lia.
  - destruct (date_string_of env (now_of env w) 1);
      intros [= <- <-]; simpl; repeat split; lia.
Qed.

Lemma bind_normal {A B} (m : M A) (k : A -> M B) w a w' :
  m w = (Normal a, w') -> bind m k w = k a w'.
Proof. unfold bind. now intros ->. Qed.

Lemma bind_throw {A B} (m : M A) (k : A -> M B) w msg w' :
  m w = (Throw msg, w') -> bind m k w = (Throw msg, w').
Proof. unfold bind. now intros ->. Qed.

(** Each handler is its prelude followed by the common service of the
    key. *)
Lemma route_handler_eq env r w key args wa :
  route_prelude env r w = (Normal (key, args), wa) ->
  route_handler env r w = serve_key env (route_ttl r) key args wa.
Proof.
  destruct r; cbn [route_prelude route_handler]; intros H.
  - unfold today_handler.
    destruct (getDateString env 0 w) as [[today|] w1] eqn:H0;
      [rewrite (bind_normal _ _ _ _ _ H0) in H
      |rewrite (bind_throw _ _ _ _ _ H0) in H; discriminate].
    rewrite (bind_normal _ _ _ _ _ H0).
    destruct (getDateString env 1 w1) as [[tomorrow|] w2] eqn:H1;
      [rewrite (bind_normal _ _ _ _ _ H1) in H
      |rewrite (bind_throw _ _ _ _ _ H1) in H; discriminate].
    rewrite (bind_normal _ _ _ _ _ H1).
    unfold ret in H. injection H as <- <- <-. reflexivity.
  - unfold upcoming_handler.
    destruct (getDateString env 1 w) as [[tomorrow|] w1] eqn:H1;
      [rewrite (bind_normal _ _ _ _ _ H1) in H
      |rewrite (bind_throw _ _ _ _ _ H1) in H; discriminate].
    rewrite (bind_normal _ _ _ _ _ H1).
    unfold ret in H. injection H as <- <- <-. reflexivity.
Qed.

Lemma route_handler_throw env r w msg wa :
  route_prelude env r w = (Throw msg, wa) ->
  route_handler env r w = (Throw msg, wa).
Proof.
  destruct r; cbn [route_prelude route_handler]; intros H.
  - unfold today_handler.
    destruct (getDateString env 0 w) as [[today|] w1] eqn:H0;
      [rewrite (bind_normal _ _ _ _ _ H0) in H
      |rewrite (bind_throw _ _ _ _ _ H0) in H;
       rewrite (bind_throw _ _ _ _ _ H0); injection H as <- <-; reflexivity].
    rewrite (bind_normal _ _ _ _ _ H0).
    destruct (getDateString env 1 w1) as [[tomorrow|] w2] eqn:H1;
      [rewrite (bind_normal _ _ _ _ _ H1) in H; discriminate
      |rewrite (bind_throw _ _ _ _ _ H1) in H;
       rewrite (bind_throw _ _ _ _ _ H1); injection H as <- <-; reflexivity].
  - unfold upcoming_handler.
    destruct (getDateString env 1 w) as [[tomorrow|] w1] eqn:H1;
      [rewrite (bind_normal _ _ _ _ _ H1) in H; discriminate
      |rewrite (bind_throw _ _ _ _ _ H1) in H;
       rewrite (bind_throw _ _ _ _ _ H1); injection H as <- <-; reflexivity].
Qed.

(** A hit: the stored object is sent back with the two extra
    properties, and only the clock is read. *)
Lemma serve_key_hit env ttl key args w :
  truthy (cache_lookup (now_of env w) (cache w) key) = true ->
  serve_key env ttl key args w =
  (Normal {| http_status := 200;
             http_body :=
               obj_extend (spread (cache_lookup (now_of env w) (cache w) key))
                 [("cached", VBool true);
                  ("cacheTime", VStr (iso_string (now_of env (tick w))))] |},
   tick (tick w)).
Proof.
  intros Hhit. unfold serve_key.
  rewrite (bind_normal _ _ _ _ _ (cache_get_eq env key w)), Hhit.
  reflexivity.
Qed.

(** A miss: the loader runs; an errored result is sent as a 503 and
    not stored, any other result is stored under the key and sent. *)
Lemma serve_key_miss env ttl key args w :
  truthy (cache_lookup (now_of env w) (cache w) key) = false ->
  exists o w',
    fetchMatches env args.1 args.2 (tick w) = (Normal o, w')
    /\ cache w' = cache w
    /\ loader_log w' = loader_log w ++
         [{| lc_dateFrom := args.1; lc_dateTo := args.2; lc_result := o |}]
    /\ (ticks w < ticks w')%nat
    /\ serve_key env ttl key args w =
       if truthy (field o "error") then
         (Normal {| http_status := 503;
                    http_body := obj_extend o
                      [("error", VStr "Service temporarily unavailable")] |},
          w')
       else
         (Normal {| http_status := 200;
                    http_body := obj_extend o
                      [("cached", VBool false);
                       ("fetchTime",
                        VStr (iso_string (env_clock env (S (ticks w')))))] |},
          {| ticks := S (S (ticks w'));
             cache := <[key := {| ce_value := VObj o;
                                  ce_storedAt := now_of env w';
                                  ce_ttlSeconds := ttl |}]> (cache w');
             net_log := net_log w'; loader_log := loader_log w' |}).
Proof.
  intros Hmiss.
  destruct (fetchMatches_total env args.1 args.2 (tick w))
    as (o & w' & Hf & _ & Hc & Hl & Ht & _).
  exists o, w'. split; [exact Hf|].
  split; [exact Hc|]. split; [exact Hl|]. split; [simpl in Ht; lia|].
  unfold serve_key.
  rewrite (bind_normal _ _ _ _ _ (cache_get_eq env key w)), Hmiss.
  rewrite (bind_normal _ _ _ _ _ Hf).
  destruct (truthy (field o "error")); reflexivity.
Qed.

(** ** Statements about the fetcher *)

Ltac obj_lookup :=
  unfold success_result, token_missing_result, error_result, obj_literal,
    obj_extend;
  cbn [foldl fst snd];
  repeat first [rewrite lookup_insert_eq
               |rewrite lookup_insert_ne by discriminate
               |rewrite lookup_empty];
  try reflexivity.

Lemma result_shape_count o :
  result_shape o ->
  exists ms, o !! "matches" = Some (VArr ms)
    /\ o !! "count" = Some (VNum (Z.of_nat (length ms))).
Proof.
  intros [kept total -> _| -> |msg ts ->]; eexists; split; obj_lookup.
Qed.

(** The run of [fetchMatches] once the token is there, the import works
    and the dates are accepted: one outbound call, then the answer
    decides. *)
Lemma fetchMatches_body_request env a b w tok ps :
  FOOTBALL_API_TOKEN env = Some tok -> truthy (VStr tok) = true ->
  env_import_error env = None ->
  build_params env a b = Normal ps ->
  fetchMatches_body env a b w =
  let req := matches_request tok ps in
  let w' := with_request w req in
  try_catch
    (fun w0 =>
       match env_upstream env (length (net_log w)) req with
       | Rejected msg => (Throw msg, w0)
       | Responded r =>
           if res_ok r then
             match res_json r with
             | Throw msg => (Throw msg, w0)
             | Normal data => (select_matches data, w0)
             end
           else (Throw ("API Error " +:+ pretty (res_status r) +:+ ": "
                        +:+ default "Unknown error" (res_text r)), w0)
       end)
    (fun message =>
       bind (now_iso env)
         (fun ts => ret (error_result message ts))) w'.
Proof.
  intros Htok Htruthy Himp Hps.
  unfold fetchMatches_body. rewrite Htok. cbn [opt_value default].
  rewrite Htruthy. cbn [negb].
  unfold try_catch. rewrite fetchMatches_try_unfold, Himp, Hps.
  cbv zeta.
  destruct (env_upstream env _ _) as [msg|r]; [reflexivity|].
  destruct (res_ok r); [|reflexivity].
  destruct (res_json r); reflexivity.
Qed.

(** C1. For every call of [fetchMatches] with accepted dates and a
    successful, well-formed upstream answer (a 2xx whose JSON body has an
    array [matches] of readable records), the result is the success
    object whose [matches] are exactly the upstream matches with a
    status among SCHEDULED, LIVE, IN_PLAY and PAUSED, in their order;
    no match with another status is in it, and [totalAvailable] is the
    length of the upstream list before filtering. *)
Theorem fetchMatches_keeps_wanted_statuses env dateFrom dateTo w tok ps r data xs :
  FOOTBALL_API_TOKEN env = Some tok -> truthy (VStr tok) = true ->
  env_import_error env = None ->
  build_params env dateFrom dateTo = Normal ps ->
  env_upstream env (length (net_log w)) (matches_request tok ps) = Responded r ->
  res_ok r = true -> res_json r = Normal data ->
  getProp data "matches" = Normal (VArr xs) -> Forall readable xs ->
  exists o w' kept,
    fetchMatches env dateFrom dateTo w = (Normal o, w')
    /\ o !! "matches" = Some (VArr kept)
    /\ kept = List.filter has_wanted_status xs
    /\ Forall wanted_status kept
    /\ (forall m, In m kept -> In m xs)
    /\ o !! "totalAvailable" = Some (VNum (Z.of_nat (length xs)))
    /\ o !! "error" = None.
Proof.
  intros Htok Htruthy Himp Hps Hup Hok Hjson Hms Hread.
  rewrite fetchMatches_eq,
    (fetchMatches_body_request env dateFrom dateTo w tok ps) by assumption.
  cbv zeta. unfold try_catch. rewrite Hup, Hok, Hjson.
  unfold select_matches. rewrite Hms. cbn [cbind].
  rewrite (filter_by_status_readable xs Hread). cbn [cbind].
  eexists _, _, _. split; [reflexivity|].
  split; [obj_lookup|]. split; [reflexivity|].
  split.
  { apply List.Forall_forall. intros m Hm. apply filter_In in Hm as [_ Hm].
    now apply has_wanted_status_spec. }
  split; [intros m Hm; now apply filter_In in Hm as [? _]|].
  split; obj_lookup.
Qed.

Lemma fetchMatches_keeps_wanted_statuses_witness :
  exists o w' kept,
    fetchMatches utc_env (Some "2024-03-09") (Some "2024-03-10") initial_world
      = (Normal o, w')
    /\ o !! "matches" = Some (VArr kept)
    /\ kept = List.filter has_wanted_status
                [VObj {[ "status" := VStr "LIVE" ]};
                 VObj {[ "status" := VStr "FINISHED" ]}]
    /\ Forall wanted_status kept
    /\ (forall m, In m kept ->
          In m [VObj {[ "status" := VStr "LIVE" ]};
                VObj {[ "status" := VStr "FINISHED" ]}])
    /\ o !! "totalAvailable" = Some (VNum 2)
    /\ o !! "error" = None.
Proof.
  apply (fetchMatches_keeps_wanted_statuses utc_env (Some "2024-03-09")
           (Some "2024-03-10") initial_world "k"
           [("dateFrom", "2024-03-09"); ("dateTo", "2024-03-10")]
           {| res_status := 200; res_text := None;
              res_json := Normal two_matches |}
           two_matches
           [VObj {[ "status" := VStr "LIVE" ]};
            VObj {[ "status" := VStr "FINISHED" ]}]);
    try reflexivity.
  repeat constructor; discriminate.
Defined.

(** C2. On every return path of [fetchMatches] (missing token, success,
    caught error) the returned object has [count] equal to the length
    of its [matches]. *)
Theorem fetchMatches_count_is_length env dateFrom dateTo w :
  exists o w' ms,
    fetchMatches env dateFrom dateTo w = (Normal o, w')
    /\ o !! "matches" = Some (VArr ms)
    /\ o !! "count" = Some (VNum (Z.of_nat (length ms))).
Proof.
  destruct (fetchMatches_total env dateFrom dateTo w)
    as (o & w' & Hf & Hshape & _).
  destruct (result_shape_count o Hshape) as (ms & Hm & Hc).
  exists o, w', ms. auto.
Qed.

(** C7. Without an API token in the environment, [fetchMatches] returns
    exactly [{matches: [], count: 0, error: "API token missing"}] at
    once: no outbound call is made and the clock is not even read. *)
Theorem fetchMatches_without_token env dateFrom dateTo w :
  truthy (opt_value (FOOTBALL_API_TOKEN env)) = false ->
  exists w',
    fetchMatches env dateFrom dateTo w
    = (Normal (obj_literal [("matches", VArr []); ("count", VNum 0);
                            ("error", VStr "API token missing")]), w')
    /\ net_log w' = net_log w /\ ticks w' = ticks w /\ cache w' = cache w.
Proof.
  intros Htok. rewrite fetchMatches_eq. unfold fetchMatches_body.
  rewrite Htok. cbn [negb]. unfold ret.
  eexists. split; [reflexivity|]. auto.
Qed.

Lemma fetchMatches_without_token_witness :
  exists w',
    fetchMatches no_token_env (Some "2024-03-09") None initial_world
    = (Normal (obj_literal [("matches", VArr []); ("count", VNum 0);
                            ("error", VStr "API token missing")]), w')
    /\ net_log w' = [] /\ ticks w' = 0%nat /\ cache w' = ∅.
Proof.
  apply (fetchMatches_without_token no_token_env (Some "2024-03-09") None
           initial_world).
  reflexivity.
Defined.
Lemma fetchMatches_body_params_throw env a b w tok msg :
  FOOTBALL_API_TOKEN env = Some tok -> truthy (VStr tok) = true ->
  env_import_error env = None ->
  build_params env a b = Throw msg ->
  fetchMatches_body env a b w
  = (Normal (error_result msg (iso_string (now_of env w))), tick w).
Proof.
  intros Htok Htruthy Himp Hps.
  unfold fetchMatches_body. rewrite Htok. cbn [opt_value default].
  rewrite Htruthy. cbn [negb].
  unfold try_catch. rewrite fetchMatches_try_unfold, Himp, Hps.
  reflexivity.
Qed.

Lemma truthy_nonempty s : s <> "" -> truthy (opt_value (Some s)) = true.
Proof.
  intros Hs. cbn [opt_value truthy].
  apply negb_true_iff, String.eqb_neq, Hs.
Qed.

(** A non-empty date string that [new Date] cannot read stops
    [build_params] with one of the two validation errors. *)
Lemma build_params_invalid env dateFrom dateTo :
  (exists s, dateFrom = Some s /\ s <> ""
             /\ Date_parse (env_other_dates env) s = None)
  \/ (exists s, dateTo = Some s /\ s <> ""
                /\ Date_parse (env_other_dates env) s = None) ->
  build_params env dateFrom dateTo = Throw "Invalid dateFrom format"
  \/ build_params env dateFrom dateTo = Throw "Invalid dateTo format".
Proof.
  intros [(s & -> & Hs & Hp)|(s & -> & Hs & Hp)]; unfold build_params.
  - left. rewrite (truthy_nonempty s Hs). cbn [new_Date_of].
    rewrite Hp. reflexivity.
  - rewrite (truthy_nonempty s Hs). cbn [negb]. rewrite andb_false_r.
    destruct (truthy (opt_value dateFrom)).
    + destruct (isNaN_date (new_Date_of env dateFrom)); [now left|].
      right. cbn [cbind]. rewrite (truthy_nonempty s Hs).
      cbn [new_Date_of]. rewrite Hp. reflexivity.
    + right. cbn [cbind]. rewrite (truthy_nonempty s Hs).
      cbn [new_Date_of]. rewrite Hp. reflexivity.
Qed.

(** C8, as the code has it.  With a token configured and the HTTP
    client importable, every non-empty date string ([dateFrom] or
    [dateTo]) that [new Date] cannot read makes [fetchMatches] return
    the error object [{matches: [], count: 0, error, timestamp}] whose
    error is "Invalid dateFrom format" or "Invalid dateTo format", and
    no outbound call is made.  (An empty string counts as an omitted
    date.) *)
Theorem fetchMatches_rejects_invalid_date env dateFrom dateTo w tok :
  FOOTBALL_API_TOKEN env = Some tok -> truthy (VStr tok) = true ->
  env_import_error env = None ->
  (exists s, dateFrom = Some s /\ s <> ""
             /\ Date_parse (env_other_dates env) s = None)
  \/ (exists s, dateTo = Some s /\ s <> ""
                /\ Date_parse (env_other_dates env) s = None) ->
  exists msg w',
    fetchMatches env dateFrom dateTo w
    = (Normal (obj_literal [("matches", VArr []); ("count", VNum 0);
                            ("error", VStr msg);
                            ("timestamp", VStr (iso_string (now_of env w)))]),
       w')
    /\ (msg = "Invalid dateFrom format" \/ msg = "Invalid dateTo format")
    /\ net_log w' = net_log w.
Proof.
  intros Htok Htruthy Himp Hbad.
  rewrite fetchMatches_eq.
  destruct (build_params_invalid env dateFrom dateTo Hbad) as [Hp|Hp];
    rewrite (fetchMatches_body_params_throw env _ _ w tok _ Htok Htruthy Himp Hp);
    eexists _, _; (split; [reflexivity|]); auto.
Qed.

Lemma fetchMatches_rejects_invalid_date_witness :
  exists msg w',
    fetchMatches utc_env (Some "not-a-date") None initial_world
    = (Normal (obj_literal [("matches", VArr []); ("count", VNum 0);
                            ("error", VStr msg);
                            ("timestamp", VStr "2024-03-09T16:00:00.000Z")]),
       w')
    /\ (msg = "Invalid dateFrom format" \/ msg = "Invalid dateTo format")
    /\ net_log w' = [].
Proof.
  apply (fetchMatches_rejects_invalid_date utc_env (Some "not-a-date") None
           initial_world "k"); try reflexivity.
  left. exists "not-a-date".
  split; [reflexivity|]. split; [discriminate|reflexivity].
Defined.

(** C8 as stated fails for the empty string: it is a supplied string that
    is no calendar date, yet [fetchMatches] treats it as omitted, calls
    the upstream and returns a result without [error]. *)
Lemma fetchMatches_accepts_empty_date :
  Date_parse (env_other_dates utc_env) "" = None
  /\ exists o w',
       fetchMatches utc_env (Some "") None initial_world = (Normal o, w')
       /\ o !! "error" = None
       /\ net_log w' = [matches_request "k" []].
Proof.
  split; [reflexivity|].
  eexists _, _. split; [reflexivity|]. split; [|reflexivity].
  vm_compute. reflexivity.
Qed.

(** C10, as the code has it.  When the upstream answers with a 2xx and
    a JSON body other than [null] whose [matches] is absent or not an
    array, [fetchMatches] returns the empty success
    [{matches: [], count: 0, totalAvailable: 0}], without [error]. *)
Theorem fetchMatches_body_without_matches env dateFrom dateTo w tok ps r data :
  FOOTBALL_API_TOKEN env = Some tok -> truthy (VStr tok) = true ->
  env_import_error env = None ->
  build_params env dateFrom dateTo = Normal ps ->
  env_upstream env (length (net_log w)) (matches_request tok ps) = Responded r ->
  res_ok r = true -> res_json r = Normal data ->
  readable data ->
  (forall xs, getProp data "matches" <> Normal (VArr xs)) ->
  exists w',
    fetchMatches env dateFrom dateTo w
    = (Normal (obj_literal [("matches", VArr []); ("count", VNum 0);
                            ("totalAvailable", VNum 0)]), w')
    /\ obj_literal [("matches", VArr []); ("count", VNum 0);
                    ("totalAvailable", VNum 0)] !! "error" = None.
Proof.
  intros Htok Htruthy Himp Hps Hup Hok Hjson Hread Hnot.
  rewrite fetchMatches_eq,
    (fetchMatches_body_request env dateFrom dateTo w tok ps) by assumption.
  cbv zeta. unfold try_catch. rewrite Hup, Hok, Hjson.
  unfold select_matches.
  destruct (getProp_readable data "matches" Hread) as (ms & Hms).
  rewrite Hms. cbn [cbind].
  assert (Hempty : match ms with VArr xs => xs | _ => [] end = []).
  { destruct ms; try reflexivity. now destruct (Hnot xs). }
  rewrite Hempty. cbn [filter_by_status cbind length].
  eexists. split; [reflexivity|]. obj_lookup.
Qed.

Lemma fetchMatches_body_without_matches_witness :
  exists w',
    fetchMatches no_matches_env None None initial_world
    = (Normal (obj_literal [("matches", VArr []); ("count", VNum 0);
                            ("totalAvailable", VNum 0)]), w')
    /\ obj_literal [("matches", VArr []); ("count", VNum 0);
                    ("totalAvailable", VNum 0)] !! "error" = None.
Proof.
  apply (fetchMatches_body_without_matches no_matches_env None None
           initial_world "k" []
           {| res_status := 200; res_text := None;
              res_json := Normal (VObj {[ "message" := VStr "none" ]}) |}
           (VObj {[ "message" := VStr "none" ]}));
    try reflexivity.
  - split; discriminate.
  - intros xs. vm_compute. discriminate.
Defined.

(** C10 as stated fails for the JSON body [null]: it is a 2xx whose body
    has no array [matches], yet reading [data.matches] throws and the
    result is an error object. *)
Lemma fetchMatches_null_body_is_an_error :
  env_upstream null_body_env 0 (matches_request "k" [])
  = Responded {| res_status := 200; res_text := None;
                 res_json := Normal VNull |}
  /\ (forall xs, getProp VNull "matches" <> Normal (VArr xs))
  /\ exists o w',
       fetchMatches null_body_env None None initial_world = (Normal o, w')
       /\ o !! "error"
          = Some (VStr "Cannot read properties of null (reading 'matches')")
       /\ o !! "totalAvailable" = None.
Proof.
  split; [reflexivity|]. split; [discriminate|].
  eexists _, _. split; [reflexivity|]. split; vm_compute; reflexivity.
Qed.

(** C5 at a date before the switch to daylight saving time.  On a host in
    US Eastern time, [fetchMatches("2024-03-08")] sends
    [dateTo=2024-03-12], four days after [dateFrom], although five days
    after it is 2024-03-13. *)
Theorem default_dateTo_across_dst_switch :
  net_log (fetchMatches new_york_env (Some "2024-03-08") None initial_world).2
  = [matches_request "k" [("dateFrom", "2024-03-08");
                          ("dateTo", "2024-03-12")]]
  /\ Date_parse (env_other_dates new_york_env) "2024-03-08"
     = Some 1709856000000
  /\ iso_date (Day 1709856000000 + 5) = "2024-03-13".
Proof. repeat split; vm_compute; reflexivity. Qed.

(** ** Statements about the routes *)

Lemma fetchMatches_issues_request env a b w tok ps :
  FOOTBALL_API_TOKEN env = Some tok -> truthy (VStr tok) = true ->
  env_import_error env = None ->
  build_params env a b = Normal ps ->
  exists o w',
    fetchMatches env a b w = (Normal o, w')
    /\ net_log w' = net_log w ++ [matches_request tok ps].
Proof.
  intros Htok Htruthy Himp Hps.
  rewrite fetchMatches_eq,
    (fetchMatches_body_request env a b w tok ps) by assumption.
  cbv zeta. unfold try_catch.
  destruct (env_upstream env _ _) as [msg|r];
    [eexists _, _; split; reflexivity|].
  destruct (res_ok r); [|eexists _, _; split; reflexivity].
  destruct (res_json r) as [data|msg]; [|eexists _, _; split; reflexivity].
  destruct (select_matches data); eexists _, _; split; reflexivity.
Qed.

Lemma iso_date_of_time_day t : iso_date_of_time t = iso_date (Day t).
Proof.
  unfold iso_date, iso_date_of_time, iso_date_chars, YearFromTime,
    MonthFromTime, DateFromTime.
  replace (Day (Day t * msPerDay)) with (Day t)
    by (unfold Day at 2, msPerDay at 1; now rewrite Z.div_mul).
  reflexivity.
Qed.

(** A miss on the upcoming route, with the date string and the query
    kept abstract. *)
Lemma upcoming_handler_miss env w tok tomorrow ps :
  getDateString env 1 w = (Normal tomorrow, tick w) ->
  truthy (cache_lookup (now_of env (tick w)) (cache (tick w))
            ("matches_upcoming_from_" +:+ tomorrow)) = false ->
  FOOTBALL_API_TOKEN env = Some tok -> truthy (VStr tok) = true ->
  env_import_error env = None ->
  build_params env (Some tomorrow) None = Normal ps ->
  exists resp w' call,
    route_handler env Upcoming w = (Normal resp, w')
    /\ loader_log w' = loader_log w ++ [call]
    /\ lc_dateFrom call = Some tomorrow
    /\ lc_dateTo call = None
    /\ net_log w' = net_log w ++ [matches_request tok ps].
Proof.
  intros Hdate Hmiss Htok Htruthy Himp Hps.
  assert (Hpre : route_prelude env Upcoming w
                 = (Normal ("matches_upcoming_from_" +:+ tomorrow,
                            (Some tomorrow, None)), tick w)).
  { cbn [route_prelude]. now rewrite (bind_normal _ _ _ _ _ Hdate). }
  rewrite (route_handler_eq env Upcoming w _ _ _ Hpre). clear Hpre Hdate.
  destruct (serve_key_miss env (route_ttl Upcoming) _ (Some tomorrow, None)
              (tick w) Hmiss) as (o & w' & Hf & Hc & Hl & Ht & Hs).
  rewrite Hs. clear Hs Hmiss.
  cbn [fst snd] in Hf, Hl.
  destruct (fetchMatches_issues_request env (Some tomorrow) None
              (tick (tick w)) tok ps Htok Htruthy Himp Hps)
    as (o' & w'' & Hf' & Hn).
  rewrite Hf in Hf'. injection Hf' as <- <-.
  exists (if truthy (field o "error")
          then {| http_status := 503;
                  http_body := obj_extend o
                    [("error", VStr "Service temporarily unavailable")] |}
          else {| http_status := 200;
                  http_body := obj_extend o
                    [("cached", VBool false);
                     ("fetchTime",
                      VStr (iso_string (env_clock env (S (ticks w')))))] |}).
  exists (if truthy (field o "error") then w'
          else {| ticks := S (S (ticks w'));
                  cache := <["matches_upcoming_from_" +:+ tomorrow :=
                             {| ce_value := VObj o;
                                ce_storedAt := now_of env w';
                                ce_ttlSeconds := route_ttl Upcoming |}]>
                             (cache w');
                  net_log := net_log w'; loader_log := loader_log w' |}).
  exists {| lc_dateFrom := Some tomorrow; lc_dateTo := None; lc_result := o |}.
  destruct (truthy (field o "error")); cbn [loader_log net_log];
    rewrite Hl, Hn; auto.
Qed.

(** C4, as the code has it.  On a cache miss the upcoming route calls
    the loader with [dateFrom] tomorrow and no [dateTo], and the outbound
    call then carries both bounds: [dateFrom] is tomorrow's ISO date and
    [dateTo] the loader's default, which on a host with a fixed UTC
    offset is the ISO date five days after tomorrow. *)
Theorem upcoming_fetch_range env off w tok :
  env_zone env = fixed_zone off ->
  FOOTBALL_API_TOKEN env = Some tok -> truthy (VStr tok) = true ->
  env_import_error env = None ->
  Z.abs (now_of env w) <= maxTime - 7 * msPerDay ->
  truthy (cache_lookup (now_of env (tick w)) (cache w)
            ("matches_upcoming_from_"
               +:+ iso_date (Day (now_of env w + msPerDay)))) = false ->
  exists resp w' call,
    route_handler env Upcoming w = (Normal resp, w')
    /\ loader_log w' = loader_log w ++ [call]
    /\ lc_dateFrom call = Some (iso_date (Day (now_of env w + msPerDay)))
    /\ lc_dateTo call = None
    /\ net_log w'
       = net_log w ++
         [matches_request tok
            [("dateFrom", iso_date (Day (now_of env w + msPerDay)));
             ("dateTo", iso_date (Day (now_of env w + msPerDay) + 5))]].
Proof.
  intros Hz Htok Htruthy Himp Hrange.
  generalize (eq_refl (Day (now_of env w + msPerDay))).
  generalize (Day (now_of env w + msPerDay)) at 1 3 4 5 6.
  intros D HD Hmiss.
  assert (Hb : Z.abs (D * msPerDay) <= maxTime
               /\ Z.abs ((D + 5) * msPerDay) <= maxTime).
  { subst D. unfold Day, maxTime, msPerDay in *.
    Z.to_euclidean_division_equations. lia. }
  destruct Hb as [Hb Hb5].
  apply (upcoming_handler_miss env w tok (iso_date D)); try assumption.
  - rewrite (getDateString_fixed_zone env off 1 w Hz)
      by (unfold maxTime, msPerDay in *; lia).
    replace (1 * msPerDay) with msPerDay by lia.
    now rewrite iso_date_of_time_day, HD.
  - exact (build_params_default_fixed_zone env off D Hz Hb Hb5).
Qed.

Lemma upcoming_fetch_range_witness :
  exists resp w' call,
    route_handler utc_env Upcoming initial_world = (Normal resp, w')
    /\ loader_log w' = [] ++ [call]
    /\ lc_dateFrom call = Some (iso_date (Day (1710000000000 + msPerDay)))
    /\ lc_dateTo call = None
    /\ net_log w'
       = [] ++
         [matches_request "k"
            [("dateFrom", iso_date (Day (1710000000000 + msPerDay)));
             ("dateTo", iso_date (Day (1710000000000 + msPerDay) + 5))]].
Proof.
  apply (upcoming_fetch_range utc_env 0 initial_world "k");
    try reflexivity.
  vm_compute. discriminate.
Defined.

(** C4 as stated fails: the call that the upcoming route issues on a miss
    has an upper bound, [dateTo], five days after [dateFrom]. *)
Lemma upcoming_request_is_bounded :
  cache_lookup (now_of utc_env (tick initial_world)) (cache initial_world)
    "matches_upcoming_from_2024-03-10" = VUndef
  /\ net_log (route_handler utc_env Upcoming initial_world).2
     = [matches_request "k" [("dateFrom", "2024-03-10");
                             ("dateTo", "2024-03-15")]]
  /\ ~ (forall req, In req (net_log (route_handler utc_env Upcoming initial_world).2)
                    -> unbounded_above req).
Proof.
  assert (Hlog : net_log (route_handler utc_env Upcoming initial_world).2
                 = [matches_request "k" [("dateFrom", "2024-03-10");
                                         ("dateTo", "2024-03-15")]])
    by (vm_compute; reflexivity).
  split; [reflexivity|]. split; [exact Hlog|].
  rewrite Hlog. intros H.
  apply (H _ (or_introl eq_refl) "2024-03-15").
  cbn [req_params matches_request]. apply list_elem_of_In. right. left.
  reflexivity.
Qed.
Lemma route_handler_cases env r w key args wa :
  route_prelude env r w = (Normal (key, args), wa) ->
  let v := cache_lookup (now_of env wa) (cache w) key in
  (truthy v = true
   /\ route_handler env r w =
      (Normal {| http_status := 200;
                 http_body := obj_extend (spread v)
                   [("cached", VBool true);
                    ("cacheTime", VStr (iso_string (now_of env (tick wa))))] |},
       tick (tick wa)))
  \/ (truthy v = false
      /\ exists o w',
           fetchMatches env args.1 args.2 (tick wa) = (Normal o, w')
           /\ cache w' = cache w
           /\ loader_log w' = loader_log w ++
                [{| lc_dateFrom := args.1; lc_dateTo := args.2;
                    lc_result := o |}]
           /\ (ticks wa < ticks w')%nat
           /\ route_handler env r w =
              if truthy (field o "error") then
                (Normal {| http_status := 503;
                           http_body := obj_extend o
                             [("error",
                               VStr "Service temporarily unavailable")] |},
                 w')
              else
                (Normal {| http_status := 200;
                           http_body := obj_extend o
                             [("cached", VBool false);
                              ("fetchTime",
                               VStr (iso_string
                                       (env_clock env (S (ticks w')))))] |},
                 {| ticks := S (S (ticks w'));
                    cache := <[key := {| ce_value := VObj o;
                                         ce_storedAt := now_of env w';
                                         ce_ttlSeconds := route_ttl r |}]>
                               (cache w');
                    net_log := net_log w';
                    loader_log := loader_log w' |})).
Proof.
  intros Hpre v.
  destruct (route_prelude_world env r w _ _ Hpre) as (Hc & Hn & Hl & Ht).
  rewrite (route_handler_eq env r w key args wa Hpre).
  subst v. rewrite <- Hc.
  destruct (truthy (cache_lookup (now_of env wa) (cache wa) key)) eqn:Hv.
  - left. split; [reflexivity|]. now apply serve_key_hit.
  - right. split; [reflexivity|].
    destruct (serve_key_miss env (route_ttl r) key args wa Hv)
      as (o & w' & Hf & Hc' & Hl' & Ht' & Hs).
    exists o, w'. split; [exact Hf|]. split; [exact Hc'|].
    split; [now rewrite Hl', Hl|]. split; [exact Ht'|]. exact Hs.
Qed.

Lemma list_neq_app_one {A} (l : list A) x : l <> l ++ [x].
Proof.
  intros H. apply (f_equal (@length A)) in H.
  rewrite length_app in H. simpl in H. lia.
Qed.

(** C3. When the loader, called by a route handler, returns a result with
    a non-empty [error], nothing is written to the cache (the handler
    answers 503); a second request for the same key, later on, finds no
    live entry either and calls the loader again. *)
Theorem errored_result_is_not_cached env r w key args wa resp w1 call :
  route_prelude env r w = (Normal (key, args), wa) ->
  route_handler env r w = (Normal resp, w1) ->
  loader_log w1 = loader_log w ++ [call] ->
  truthy (field (lc_result call) "error") = true ->
  cache w1 = cache w
  /\ http_status resp = 503
  /\ forall args2 wb,
       route_prelude env r w1 = (Normal (key, args2), wb) ->
       now_of env wa <= now_of env wb ->
       exists resp2 w2 call2,
         route_handler env r w1 = (Normal resp2, w2)
         /\ loader_log w2 = loader_log w ++ [call; call2].
Proof.
  intros Hpre Hrun Hlog Herr.
  destruct (route_handler_cases env r w key args wa Hpre)
    as [[Hhit Hh]|(Hmiss & o & w' & Hf & Hc & Hl & Ht & Hh)].
  { rewrite Hrun in Hh. injection Hh as _ ->.
    destruct (route_prelude_world env r w _ _ Hpre) as (_ & _ & Hl & _).
    cbn [tick loader_log] in Hlog. rewrite Hl in Hlog.
    now apply list_neq_app_one in Hlog. }
  rewrite Hrun in Hh.
  destruct (truthy (field o "error")) eqn:Ho.
  - injection Hh as -> ->.
    rewrite Hl in Hlog. apply app_inv_head in Hlog. injection Hlog as <-.
    split; [exact Hc|]. split; [reflexivity|].
    intros args2 wb Hpre2 Hmono.
    destruct (route_handler_cases env r w' key args2 wb Hpre2)
      as [[Hhit2 _]|(_ & o2 & w2 & Hf2 & Hc2 & Hl2 & Ht2 & Hh2)].
    + exfalso. rewrite Hc in Hhit2. unfold cache_lookup in Hmiss, Hhit2.
      destruct (cache w !! key) as [e|]; [|discriminate].
      destruct (live (now_of env wb) e) eqn:Hlive2; [|discriminate].
      replace (live (now_of env wa) e) with true in Hmiss by
        (symmetry; unfold live in *; lia).
      congruence.
    + destruct (truthy (field o2 "error"));
        eexists _, _, _; (split; [exact Hh2|]); cbn [loader_log];
        rewrite Hl2, Hl, <- app_assoc; reflexivity.
  - injection Hh as _ ->. cbn [loader_log] in Hlog.
    rewrite Hl in Hlog. apply app_inv_head in Hlog. injection Hlog as <-.
    cbn [lc_result] in Herr. congruence.
Qed.


Lemma errored_result_is_not_cached_witness :
  cache failed_once = cache initial_world
  /\ http_status (response_of (route_handler failing_env Today initial_world))
     = 503
  /\ exists resp2 w2 call2,
       route_handler failing_env Today failed_once = (Normal resp2, w2)
       /\ loader_log w2
          = loader_log initial_world ++ [last_call failed_once; call2].
Proof.
  destruct (errored_result_is_not_cached failing_env Today initial_world
              "matches_today_2024-03-09"
              (Some "2024-03-09", Some "2024-03-10")
              (tick (tick initial_world))
              (response_of (route_handler failing_env Today initial_world))
              failed_once (last_call failed_once))
    as (Hc & Hs & Hagain).
  - vm_compute. reflexivity.
  - vm_compute. reflexivity.
  - vm_compute. reflexivity.
  - vm_compute. reflexivity.
  - split; [exact Hc|]. split; [exact Hs|].
    apply (Hagain (Some "2024-03-09", Some "2024-03-10")
             (tick (tick failed_once))).
    + vm_compute. reflexivity.
    + vm_compute. discriminate.
Defined.

Lemma obj_extend_two_lookup (o : gmap string value) k1 v1 k2 v2 k :
  k <> k1 -> k <> k2 ->
  obj_extend o [(k1, v1); (k2, v2)] !! k = o !! k.
Proof.
  intros H1 H2. unfold obj_extend. cbn [foldl fst snd].
  rewrite !lookup_insert_ne by congruence. reflexivity.
Qed.

(** C6.  When a request reaches a route whose derived key holds a stored
    result that has not expired, the handler answers 200 with every
    stored property unchanged, [cached: true] and a [cacheTime]; the
    loader is not called, no outbound call is made and the store is left
    as it was.  Once the entry's expiry lies in the past, the same
    request calls the loader again, with the route's date arguments. *)
Theorem cached_result_is_served env r w key args wa e o :
  route_prelude env r w = (Normal (key, args), wa) ->
  cache w !! key = Some e -> ce_value e = VObj o ->
  (now_of env wa < ce_expiry e ->
   exists resp w',
     route_handler env r w = (Normal resp, w')
     /\ http_status resp = 200
     /\ http_body resp !! "cached" = Some (VBool true)
     /\ (forall k, k <> "cached" -> k <> "cacheTime" ->
                   http_body resp !! k = o !! k)
     /\ loader_log w' = loader_log w /\ net_log w' = net_log w
     /\ cache w' = cache w)
  /\ (ce_expiry e < now_of env wa ->
      exists resp w' call,
        route_handler env r w = (Normal resp, w')
        /\ loader_log w' = loader_log w ++ [call]
        /\ (lc_dateFrom call, lc_dateTo call) = args).
Proof.
  intros Hpre He Ho.
  destruct (route_prelude_world env r w _ _ Hpre) as (Hc & Hn & Hl & Ht).
  destruct (route_handler_cases env r w key args wa Hpre)
    as [[Hhit Hh]|(Hmiss & o' & w' & Hf & Hc' & Hl' & Ht' & Hh)];
    unfold cache_lookup in *; rewrite He in *; split; intros Hnow.
  - replace (live (now_of env wa) e) with true in Hh
      by (symmetry; apply Z.ltb_lt, Hnow).
    rewrite Ho in Hh. cbn [spread] in Hh.
    eexists _, _. split; [exact Hh|]. cbn [http_status http_body].
    split; [reflexivity|].
    split; [unfold obj_extend; cbn [foldl fst snd];
            now rewrite lookup_insert_ne, lookup_insert_eq by discriminate|].
    split; [intros k Hk1 Hk2; now apply obj_extend_two_lookup|].
    cbn [tick loader_log net_log cache]. auto.
  - replace (live (now_of env wa) e) with false in Hhit
      by (symmetry; apply Z.ltb_ge; lia).
    discriminate.
  - replace (live (now_of env wa) e) with true in Hmiss
      by (symmetry; apply Z.ltb_lt, Hnow).
    rewrite Ho in Hmiss. discriminate.
  - destruct args as [a b]. cbn [fst snd] in *.
    destruct (truthy (field o' "error"));
      eexists _, _, _; (split; [exact Hh|]); cbn [loader_log];
      (split; [exact Hl'|reflexivity]).
Qed.

Lemma cached_result_is_served_witness :
  (exists resp w',
     route_handler utc_env Today served_once = (Normal resp, w')
     /\ http_status resp = 200
     /\ http_body resp !! "cached" = Some (VBool true)
     /\ (forall k, k <> "cached" -> k <> "cacheTime" ->
                   http_body resp !! k
                   = success_result [VObj {[ "status" := VStr "LIVE" ]}] 2 !! k)
     /\ loader_log w' = loader_log served_once
     /\ net_log w' = net_log served_once
     /\ cache w' = cache served_once)
  /\ (exists resp w' call,
        route_handler late_env Today served_long_ago = (Normal resp, w')
        /\ loader_log w' = loader_log served_long_ago ++ [call]
        /\ (lc_dateFrom call, lc_dateTo call)
           = (Some "2024-03-09", Some "2024-03-10")).
Proof.
  split.
  - apply (proj1 (cached_result_is_served utc_env Today served_once
                    "matches_today_2024-03-09"
                    (Some "2024-03-09", Some "2024-03-10")
                    (tick (tick served_once))
                    {| ce_value :=
                         VObj (success_result
                                 [VObj {[ "status" := VStr "LIVE" ]}] 2);
                       ce_storedAt := 1710000003000;
                       ce_ttlSeconds := 1800 |}
                    (success_result [VObj {[ "status" := VStr "LIVE" ]}] 2)
                    ltac:(vm_compute; reflexivity)
                    ltac:(vm_compute; reflexivity)
                    ltac:(reflexivity))).
    vm_compute. reflexivity.
  - apply (proj2 (cached_result_is_served late_env Today served_long_ago
                    "matches_today_2024-03-09"
                    (Some "2024-03-09", Some "2024-03-10")
                    (tick (tick served_long_ago))
                    {| ce_value :=
                         VObj (success_result
                                 [VObj {[ "status" := VStr "LIVE" ]}] 2);
                       ce_storedAt := 1710000000003;
                       ce_ttlSeconds := 1800 |}
                    (success_result [VObj {[ "status" := VStr "LIVE" ]}] 2)
                    ltac:(vm_compute; reflexivity)
                    ltac:(vm_compute; reflexivity)
                    ltac:(reflexivity))).
    vm_compute. reflexivity.
Defined.

Lemma entry_provenance_mono env w w' k e :
  (ticks w <= ticks w')%nat ->
  entry_provenance env w k e -> entry_provenance env w' k e.
Proof.
  intros Ht (r & n0 & n1 & d & o & Hn & H).
  exists r, n0, n1, d, o. split; [lia|exact H].
Qed.

Lemma cache_inv_same env w w' :
  cache w' = cache w -> (ticks w <= ticks w')%nat ->
  cache_inv env w -> cache_inv env w'.
Proof.
  intros Hc Ht Hinv k e Hk. rewrite Hc in Hk.
  eapply entry_provenance_mono; [exact Ht|]. now apply Hinv.
Qed.

(** The key that the prelude derives names the date string computed from
    the first clock reading of the request. *)
Lemma route_prelude_key env r w key args wa :
  route_prelude env r w = (Normal (key, args), wa) ->
  exists d, date_string_of env (now_of env w) (route_offset r) = Normal d
            /\ key = route_prefix r +:+ d.
Proof.
  destruct r; cbn [route_prelude route_offset route_prefix]; intros H.
  - destruct (getDateString env 0 w) as [[today|] w1] eqn:H0;
      [rewrite (bind_normal _ _ _ _ _ H0) in H
      |rewrite (bind_throw _ _ _ _ _ H0) in H; discriminate].
    destruct (getDateString env 1 w1) as [[tomorrow|] w2] eqn:H1;
      [rewrite (bind_normal _ _ _ _ _ H1) in H
      |rewrite (bind_throw _ _ _ _ _ H1) in H; discriminate].
    unfold ret in H. injection H as <- _ _.
    rewrite getDateString_eq in H0. injection H0 as H0 _. eauto.
  - destruct (getDateString env 1 w) as [[tomorrow|] w1] eqn:H1;
      [rewrite (bind_normal _ _ _ _ _ H1) in H
      |rewrite (bind_throw _ _ _ _ _ H1) in H; discriminate].
    unfold ret in H. injection H as <- _ _.
    rewrite getDateString_eq in H1. injection H1 as H1 _. eauto.
Qed.

Lemma route_handler_inv env r w :
  cache_inv env w -> cache_inv env (route_handler env r w).2.
Proof.
  intros Hinv.
  destruct (route_prelude env r w) as [[[key args]|msg] wa] eqn:Hpre.
  2:{ rewrite (route_handler_throw env r w msg wa Hpre). cbn [snd].
      destruct (route_prelude_world env r w _ _ Hpre) as (Hc & _ & _ & Ht).
      apply (cache_inv_same env w); [exact Hc|lia|exact Hinv]. }
  destruct (route_prelude_world env r w _ _ Hpre) as (Hc & _ & _ & Ht).
  destruct (route_handler_cases env r w key args wa Hpre)
    as [[_ Hh]|(_ & o & w' & Hf & Hc' & Hl' & Ht' & Hh)]; rewrite Hh.
  - cbn [snd]. apply (cache_inv_same env w);
      [cbn [tick cache]; exact Hc|cbn [tick ticks]; lia|exact Hinv].
  - destruct (truthy (field o "error")) eqn:Ho; cbn [snd].
    + apply (cache_inv_same env w); [exact Hc'|lia|exact Hinv].
    + intros k e Hk. cbn [cache] in Hk.
      destruct (decide (key = k)) as [<-|Hne].
      * rewrite lookup_insert_eq in Hk. injection Hk as <-.
        destruct (route_prelude_key env r w key args wa Hpre) as (d & Hd & ->).
        exists r, (ticks w), (ticks w'), d, o. cbn [ticks].
        split; [lia|]. repeat split; auto.
      * rewrite lookup_insert_ne in Hk by exact Hne. rewrite Hc' in Hk.
        eapply entry_provenance_mono; [|apply (Hinv k e Hk)].
        cbn [ticks]. lia.
Qed.

Lemma step_inv env w w' : step env w w' -> cache_inv env w -> cache_inv env w'.
Proof.
  intros [r w0|w0|w0|w0] Hinv.
  - now apply route_handler_inv.
  - apply (cache_inv_same env w0); [reflexivity|cbn; lia|exact Hinv].
  - intros k e Hk. cbn in Hk.
    apply map_lookup_filter_Some in Hk as [Hk _].
    eapply entry_provenance_mono; [|apply (Hinv k e Hk)]. cbn. lia.
  - intros k e Hk. cbn in Hk. rewrite lookup_empty in Hk. discriminate.
Qed.

Lemma reachable_inv env w : reachable env w -> cache_inv env w.
Proof.
  unfold reachable.
  apply (rtc_ind_r (R := step env) (cache_inv env) initial_world).
  - intros k e Hk. cbn in Hk. rewrite lookup_empty in Hk. discriminate.
  - intros y z _ Hstep Hy. exact (step_inv env y z Hstep Hy).
Qed.

(** C9, as the code has it.  In every reachable state each entry that
    is still live belongs to one route and one date: its key is the
    route's prefix followed by the date string a handler derived from an
    earlier clock reading, it holds a result without [error], and it was
    stored at a later reading less than the route's TTL (1800 s for
    today, 300 s for upcoming) before now.  Entries of the same route for
    two dates may be live together. *)
Theorem live_entries_are_recent env w k e :
  reachable env w -> cache w !! k = Some e -> live (now_of env w) e = true ->
  exists r n0 n1 d o,
    (n0 <= n1 < ticks w)%nat
    /\ date_string_of env (env_clock env n0) (route_offset r) = Normal d
    /\ k = route_prefix r +:+ d
    /\ ce_value e = VObj o /\ truthy (field o "error") = false
    /\ now_of env w < env_clock env n1 + 1000 * route_ttl r.
Proof.
  intros Hreach Hk Hlive.
  destruct (reachable_inv env w Hreach k e Hk)
    as (r & n0 & n1 & d & o & Hn & Hd & Hkey & Hs & Httl & Hv & Herr).
  exists r, n0, n1, d, o. repeat split; try assumption; try lia.
  unfold live, ce_expiry in Hlive. rewrite Hs, Httl in Hlive. lia.
Qed.

Lemma after_midnight_reachable : reachable midnight_env after_midnight.
Proof.
  unfold reachable, after_midnight.
  eapply rtc_l; [apply (step_request midnight_env Today)|].
  eapply rtc_l; [apply (step_request midnight_env Today)|].
  apply rtc_refl.
Qed.

Lemma live_entries_are_recent_witness :
  exists r n0 n1 d o,
    (n0 <= n1 < ticks after_midnight)%nat
    /\ date_string_of midnight_env (env_clock midnight_env n0) (route_offset r)
       = Normal d
    /\ "matches_today_2024-03-09" = route_prefix r +:+ d
    /\ ce_value {| ce_value :=
                     VObj (success_result
                             [VObj {[ "status" := VStr "LIVE" ]}] 2);
                   ce_storedAt := 1710028200003;
                   ce_ttlSeconds := 1800 |} = VObj o
    /\ truthy (field o "error") = false
    /\ now_of midnight_env after_midnight
       < env_clock midnight_env n1 + 1000 * route_ttl r.
Proof.
  apply (live_entries_are_recent midnight_env after_midnight
           "matches_today_2024-03-09"
           {| ce_value :=
                VObj (success_result [VObj {[ "status" := VStr "LIVE" ]}] 2);
              ce_storedAt := 1710028200003;
              ce_ttlSeconds := 1800 |}
           after_midnight_reachable).
  - vm_compute. reflexivity.
  - vm_compute. reflexivity.
Defined.

(** C9 as stated fails around midnight: after a request to the today
    route at 23:50 and another at 00:05, the entries of both dates are
    live at once. *)
Lemma two_live_entries_after_midnight :
  reachable midnight_env after_midnight
  /\ ~ one_live_entry_per_route midnight_env after_midnight.
Proof.
  split; [exact after_midnight_reachable|].
  intros H.
  assert (H1 : cache after_midnight !! (route_prefix Today +:+ "2024-03-09")
               = Some {| ce_value :=
                           VObj (success_result
                                   [VObj {[ "status" := VStr "LIVE" ]}] 2);
                         ce_storedAt := 1710028200003;
                         ce_ttlSeconds := 1800 |})
    by (vm_compute; reflexivity).
  assert (H2 : cache after_midnight !! (route_prefix Today +:+ "2024-03-10")
               = Some {| ce_value :=
                           VObj (success_result
                                   [VObj {[ "status" := VStr "LIVE" ]}] 2);
                         ce_storedAt := 1710029100008;
                         ce_ttlSeconds := 1800 |})
    by (vm_compute; reflexivity).
  specialize (H Today "2024-03-09" "2024-03-10" _ _ H1 H2
                ltac:(vm_compute; reflexivity) ltac:(vm_compute; reflexivity)).
  discriminate H.
Qed.

(** ** More about the fetcher *)

(** What one call of the loader does to the state. *)
Lemma fetchMatches_footprint env dateFrom dateTo w :
  exists o w',
    fetchMatches env dateFrom dateTo w = (Normal o, w')
    /\ result_shape o
    /\ cache w' = cache w
    /\ (net_log w' = net_log w \/ exists req, net_log w' = net_log w ++ [req]).
Proof.
  rewrite fetchMatches_eq. unfold fetchMatches_body.
  destruct (truthy (opt_value (FOOTBALL_API_TOKEN env))); cbn [negb].
  2:{ eexists _, _. split; [reflexivity|].
      split; [apply shape_token_missing; reflexivity|]. auto. }
  unfold try_catch. rewrite fetchMatches_try_unfold.
  destruct (env_import_error env) as [msg|].
  { eexists _, _. split; [reflexivity|].
    split; [eapply shape_error; reflexivity|]. auto. }
  destruct (build_params env dateFrom dateTo) as [ps|msg].
  2:{ eexists _, _. split; [reflexivity|].
      split; [eapply shape_error; reflexivity|]. auto. }
  cbv zeta.
  destruct (env_upstream env _ _) as [msg|r].
  { eexists _, _. split; [reflexivity|].
    split; [eapply shape_error; reflexivity|]. cbn. eauto. }
  destruct (res_ok r).
  2:{ eexists _, _. split; [reflexivity|].
      split; [eapply shape_error; reflexivity|]. cbn. eauto. }
  destruct (res_json r) as [data|msg].
  2:{ eexists _, _. split; [reflexivity|].
      split; [eapply shape_error; reflexivity|]. cbn. eauto. }
  destruct (select_matches data) as [o|msg] eqn:Hsel.
  - eexists _, _. split; [reflexivity|].
    split; [eapply select_matches_shape, Hsel|]. cbn. eauto.
  - eexists _, _. split; [reflexivity|].
    split; [eapply shape_error; reflexivity|]. cbn. eauto.
Qed.


(** X1.  [fetchMatches] never throws, whatever the environment does: it
    returns one of the three result shapes, leaves the cache alone, and
    makes no outbound call or exactly one (there is no retry). *)
Theorem fetchMatches_at_most_one_call env dateFrom dateTo w :
  exists o w',
    fetchMatches env dateFrom dateTo w = (Normal o, w')
    /\ result_shape o
    /\ cache w' = cache w
    /\ (net_log w' = net_log w \/ exists req, net_log w' = net_log w ++ [req]).
Proof. exact (fetchMatches_footprint env dateFrom dateTo w). Qed.

(** X2.  A non-2xx answer of the upstream becomes the error result
    whose message is "API Error <status>: <body text>", with "Unknown
    error" in place of a body that cannot be read; the timestamp is the
    clock reading after the call, and one outbound call was made. *)
Theorem fetchMatches_upstream_error env dateFrom dateTo w tok ps r :
  FOOTBALL_API_TOKEN env = Some tok -> truthy (VStr tok) = true ->
  env_import_error env = None ->
  build_params env dateFrom dateTo = Normal ps ->
  env_upstream env (length (net_log w)) (matches_request tok ps) = Responded r ->
  res_ok r = false ->
  exists w',
    fetchMatches env dateFrom dateTo w
    = (Normal (error_result
                 ("API Error " +:+ pretty (res_status r) +:+ ": "
                  +:+ default "Unknown error" (res_text r))
                 (iso_string (now_of env w))), w')
    /\ net_log w' = net_log w ++ [matches_request tok ps]
    /\ cache w' = cache w.
Proof.
  intros Htok Htruthy Himp Hps Hup Hok.
  rewrite fetchMatches_eq,
    (fetchMatches_body_request env dateFrom dateTo w tok ps) by assumption.
  cbv zeta. unfold try_catch. rewrite Hup, Hok.
  eexists. split; [reflexivity|]. auto.
Qed.

Lemma fetchMatches_upstream_error_witness :
  exists w',
    fetchMatches failing_env None None initial_world
    = (Normal (error_result
                 ("API Error " +:+ pretty 500 +:+ ": "
                  +:+ default "Unknown error" (Some "down"))
                 (iso_string (now_of failing_env initial_world))), w')
    /\ net_log w' = net_log initial_world ++ [matches_request "k" []]
    /\ cache w' = cache initial_world.
Proof.
  apply (fetchMatches_upstream_error failing_env None None initial_world "k" []
           {| res_status := 500; res_text := Some "down";
              res_json := Throw "Unexpected token" |});
    reflexivity.
Defined.

(** X3.  A call that is rejected (transport failure, timeout) and a 2xx
    body that is not JSON both end in the error result that carries the
    message of the failure; nothing is thrown to the caller. *)
Theorem fetchMatches_transport_failure env dateFrom dateTo w tok ps msg :
  FOOTBALL_API_TOKEN env = Some tok -> truthy (VStr tok) = true ->
  env_import_error env = None ->
  build_params env dateFrom dateTo = Normal ps ->
  env_upstream env (length (net_log w)) (matches_request tok ps) = Rejected msg
  \/ (exists r,
        env_upstream env (length (net_log w)) (matches_request tok ps)
        = Responded r
        /\ res_ok r = true /\ res_json r = Throw msg) ->
  exists w',
    fetchMatches env dateFrom dateTo w
    = (Normal (error_result msg (iso_string (now_of env w))), w')
    /\ net_log w' = net_log w ++ [matches_request tok ps]
    /\ cache w' = cache w.
Proof.
  intros Htok Htruthy Himp Hps Hup.
  rewrite fetchMatches_eq,
    (fetchMatches_body_request env dateFrom dateTo w tok ps) by assumption.
  cbv zeta. unfold try_catch.
  destruct Hup as [Hup|(r & Hup & Hok & Hjson)]; rewrite Hup.
  - eexists. split; [reflexivity|]. auto.
  - rewrite Hok, Hjson. eexists. split; [reflexivity|]. auto.
Qed.

Lemma fetchMatches_transport_failure_witness :
  exists w',
    fetchMatches unreachable_env None None initial_world
    = (Normal (error_result "request to upstream failed"
                 (iso_string (now_of unreachable_env initial_world))), w')
    /\ net_log w' = net_log initial_world ++ [matches_request "k" []]
    /\ cache w' = cache initial_world.
Proof.
  apply (fetchMatches_transport_failure unreachable_env None None
           initial_world "k" [] "request to upstream failed");
    try reflexivity.
  left. reflexivity.
Defined.

Lemma TimeClip_Some x u : TimeClip x = Some u -> Z.abs u <= maxTime.
Proof.
  unfold TimeClip. destruct (Z.abs x <=? maxTime) eqn:H; [|discriminate].
  intros [= <-]. lia.
Qed.

Lemma setDate_Some tz d n u : setDate tz d n = Some u -> Z.abs u <= maxTime.
Proof.
  unfold setDate. destruct d as [t|]; [|discriminate].
  destruct n as [k|]; [|discriminate]. cbn. apply TimeClip_Some.
Qed.

(** X8.  When [dateFrom] is a date that [new Date] accepts and [dateTo]
    is omitted, the default upper bound computed from it is always
    accepted by the validation that follows, in every time zone: the
    error "Invalid dateTo format" cannot occur.  The only failure is a
    [RangeError] ("Invalid time value") when five days later lies beyond
    the range of Date. *)
Theorem default_dateTo_is_valid env s t :
  s <> "" -> Date_parse (env_other_dates env) s = Some t ->
  (exists d u,
     build_params env (Some s) None = Normal [("dateFrom", s); ("dateTo", d)]
     /\ Date_parse (env_other_dates env) d = Some u)
  \/ build_params env (Some s) None = Throw "Invalid time value".
Proof.
  intros Hs Hp. unfold build_params.
  rewrite (truthy_nonempty s Hs). cbn [new_Date_of opt_value truthy negb andb].
  rewrite Hp. cbn [isNaN_date cbind default].
  destruct (setDate (env_zone env) (Some t)
              ((fun n => n + 5) <$> getDate (env_zone env) (Some t)))
    as [u|] eqn:Hset.
  - left. apply setDate_Some in Hset.
    destruct (toISOString_split u) as (iso & Hiso & Hsplit).
    rewrite Hiso. cbn [cbind]. rewrite Hsplit.
    cbn [opt_value truthy]. rewrite iso_date_nonempty. cbn [negb new_Date_of].
    rewrite (Date_parse_iso_date _ u Hset). cbn [isNaN_date default app].
    eexists _, _. split; [reflexivity|]. apply Date_parse_iso_date, Hset.
  - right. reflexivity.
Qed.

Lemma default_dateTo_is_valid_witness :
  (exists d u,
     build_params new_york_env (Some "2024-03-08") None
     = Normal [("dateFrom", "2024-03-08"); ("dateTo", d)]
     /\ Date_parse (env_other_dates new_york_env) d = Some u)
  \/ build_params new_york_env (Some "2024-03-08") None
     = Throw "Invalid time value".
Proof.
  apply (default_dateTo_is_valid new_york_env "2024-03-08" 1709856000000).
  - discriminate.
  - vm_compute. reflexivity.
Defined.

(** X9.  The query that [fetchMatches] sends has one of three forms: no
    parameter when both dates are omitted (or empty), [dateTo] alone when
    only the upper bound is given, or [dateFrom] followed by [dateTo]; a
    lower bound is never sent without an upper bound.  The bounds that
    were given are sent as they were given. *)
Theorem build_params_forms env dateFrom dateTo ps :
  build_params env dateFrom dateTo = Normal ps ->
  (truthy (opt_value dateFrom) = false /\ truthy (opt_value dateTo) = false
   /\ ps = [])
  \/ (truthy (opt_value dateFrom) = false
      /\ exists s, dateTo = Some s /\ ps = [("dateTo", s)])
  \/ (exists s d,
        dateFrom = Some s /\ ps = [("dateFrom", s); ("dateTo", d)]
        /\ (truthy (opt_value dateTo) = true -> dateTo = Some d)).
Proof.
  unfold build_params.
  destruct (truthy (opt_value dateFrom)) eqn:Hfrom.
  - destruct dateFrom as [s|]; [|discriminate].
    destruct (isNaN_date (new_Date_of env (Some s))); [discriminate|].
    cbn [cbind default andb].
    destruct (truthy (opt_value dateTo)) eqn:Hto; cbn [negb].
    + cbn [cbind]. rewrite Hto.
      destruct dateTo as [d|]; [|discriminate].
      destruct (isNaN_date (new_Date_of env (Some d))); [discriminate|].
      intros [= <-]. right. right. exists s, d. auto.
    + destruct (setDate _ _ _) as [u|]; [|discriminate].
      destruct (toISOString_split u) as (iso & Hiso & Hsplit).
      rewrite Hiso. cbn [cbind]. rewrite Hsplit.
      cbn [opt_value truthy]. rewrite iso_date_nonempty. cbn [negb].
      destruct (isNaN_date _); [discriminate|].
      intros [= <-]. right. right. exists s, (iso_date_of_time u).
      split; [reflexivity|]. split; [reflexivity|]. intros Ht. congruence.
  - cbn [cbind andb].
    destruct (truthy (opt_value dateTo)) eqn:Hto.
    + destruct dateTo as [d|]; [|discriminate].
      destruct (isNaN_date (new_Date_of env (Some d))); [discriminate|].
      intros [= <-]. right. left. eauto.
    + intros [= <-]. left. auto.
Qed.

Lemma build_params_forms_witness :
  (truthy (opt_value (Some "2024-03-09")) = false
   /\ truthy (opt_value None) = false
   /\ [("dateFrom", "2024-03-09"); ("dateTo", "2024-03-14")] = [])
  \/ (truthy (opt_value (Some "2024-03-09")) = false
      /\ exists s, None = Some s
                   /\ [("dateFrom", "2024-03-09"); ("dateTo", "2024-03-14")]
                      = [("dateTo", s)])
  \/ (exists s d,
        Some "2024-03-09" = Some s
        /\ [("dateFrom", "2024-03-09"); ("dateTo", "2024-03-14")]
           = [("dateFrom", s); ("dateTo", d)]
        /\ (truthy (opt_value None) = true -> None = Some d)).
Proof.
  apply (build_params_forms utc_env (Some "2024-03-09") None).
  vm_compute. reflexivity.
Defined.

(** ** More about the dates *)

Lemma Day_add_days t k : Day (t + k * msPerDay) = Day t + k.
Proof. unfold Day, msPerDay. now rewrite Z.div_add. Qed.

Lemma getDateString_fixed_zone_day env off k w :
  env_zone env = fixed_zone off ->
  Z.abs (now_of env w + k * msPerDay) <= maxTime ->
  getDateString env k w = (Normal (iso_date (Day (now_of env w) + k)), tick w).
Proof.
  intros Hz Hr.
  rewrite (getDateString_fixed_zone env off k w Hz Hr).
  now rewrite iso_date_of_time_day, Day_add_days.
Qed.

(** X7.  On a host with a fixed UTC offset, [getDateString(k)] is the ISO
    name of the UTC day [k] days after the current UTC day, whatever the
    offset is, and [new Date] reads that string back as UTC midnight of
    the same day. *)
Theorem getDateString_is_utc_date env off k w :
  env_zone env = fixed_zone off ->
  Z.abs (now_of env w + k * msPerDay) <= maxTime ->
  getDateString env k w = (Normal (iso_date (Day (now_of env w) + k)), tick w)
  /\ Date_parse (env_other_dates env) (iso_date (Day (now_of env w) + k))
     = Some ((Day (now_of env w) + k) * msPerDay).
Proof.
  intros Hz Hr. split.
  - exact (getDateString_fixed_zone_day env off k w Hz Hr).
  - rewrite <- Day_add_days, <- iso_date_of_time_day.
    apply Date_parse_iso_date, Hr.
Qed.

Lemma getDateString_is_utc_date_witness :
  getDateString kolkata_env 1 initial_world
  = (Normal (iso_date (Day (now_of kolkata_env initial_world) + 1)),
     tick initial_world)
  /\ Date_parse (env_other_dates kolkata_env)
       (iso_date (Day (now_of kolkata_env initial_world) + 1))
     = Some ((Day (now_of kolkata_env initial_world) + 1) * msPerDay).
Proof.
  apply (getDateString_is_utc_date kolkata_env 19800000 1 initial_world).
  - reflexivity.
  - vm_compute. discriminate.
Defined.

(** X10.  The keys of the two routes never collide, and a route's key
    determines its date: equal keys mean the same route and the same
    date string. *)
Theorem cache_keys_are_distinct r1 d1 r2 d2 :
  route_prefix r1 +:+ d1 = route_prefix r2 +:+ d2 -> r1 = r2 /\ d1 = d2.
Proof.
  intros H. destruct r1, r2; cbn in H; simplify_eq; auto.
Qed.

Lemma cache_keys_are_distinct_witness :
  Today = Today /\ "2024-03-09" = "2024-03-09".
Proof.
  apply (cache_keys_are_distinct Today "2024-03-09" Today "2024-03-09").
  reflexivity.
Defined.

(** ** More about the routes *)

Lemma result_shape_matches o :
  result_shape o ->
  exists ms, o !! "matches" = Some (VArr ms)
    /\ Forall wanted_status ms
    /\ o !! "count" = Some (VNum (Z.of_nat (length ms))).
Proof.
  intros [kept total -> Hk| -> |msg ts ->]; eexists;
    (split; [obj_lookup|]); (split; [|obj_lookup]);
    first [exact Hk | constructor].
Qed.

(** X4.  When the loader's result carries a non-empty [error], the route
    answers 503 and replaces the message: the [error] sent is always
    "Service temporarily unavailable", never the loader's own text, and
    every other property of the loader's result is sent as it is. *)
Theorem errored_response_is_generic env r w key args wa resp w1 call :
  route_prelude env r w = (Normal (key, args), wa) ->
  route_handler env r w = (Normal resp, w1) ->
  loader_log w1 = loader_log w ++ [call] ->
  truthy (field (lc_result call) "error") = true ->
  http_status resp = 503
  /\ http_body resp !! "error"
     = Some (VStr "Service temporarily unavailable")
  /\ forall k, k <> "error" -> http_body resp !! k = lc_result call !! k.
Proof.
  intros Hpre Hrun Hlog Herr.
  destruct (route_handler_cases env r w key args wa Hpre)
    as [[Hhit Hh]|(Hmiss & o & w' & Hf & Hc & Hl & Ht & Hh)].
  { rewrite Hrun in Hh. injection Hh as _ ->.
    destruct (route_prelude_world env r w _ _ Hpre) as (_ & _ & Hl & _).
    cbn [tick loader_log] in Hlog. rewrite Hl in Hlog.
    now apply list_neq_app_one in Hlog. }
  rewrite Hrun in Hh.
  destruct (truthy (field o "error")) eqn:Ho.
  - injection Hh as -> ->.
    rewrite Hl in Hlog. apply app_inv_head in Hlog. injection Hlog as <-.
    cbn [http_status http_body lc_result]. unfold obj_extend.
    cbn [foldl fst snd].
    split; [reflexivity|]. split; [apply lookup_insert_eq|].
    intros k Hk. now rewrite lookup_insert_ne by congruence.
  - injection Hh as _ ->. cbn [loader_log] in Hlog.
    rewrite Hl in Hlog. apply app_inv_head in Hlog. injection Hlog as <-.
    cbn [lc_result] in Herr. congruence.
Qed.

Lemma errored_response_is_generic_witness :
  http_status (response_of (route_handler failing_env Today initial_world))
  = 503
  /\ http_body (response_of (route_handler failing_env Today initial_world))
       !! "error"
     = Some (VStr "Service temporarily unavailable")
  /\ forall k, k <> "error" ->
       http_body (response_of (route_handler failing_env Today initial_world))
         !! k
       = lc_result (last_call failed_once) !! k.
Proof.
  apply (errored_response_is_generic failing_env Today initial_world
           "matches_today_2024-03-09"
           (Some "2024-03-09", Some "2024-03-10")
           (tick (tick initial_world))
           (response_of (route_handler failing_env Today initial_world))
           failed_once (last_call failed_once)).
  - vm_compute. reflexivity.
  - vm_compute. reflexivity.
  - vm_compute. reflexivity.
  - vm_compute. reflexivity.
Defined.

(** X5.  A round trip through the store.  When a request misses and the
    loader's result carries no [error], the route answers 200 with
    [cached: false] and the result's properties, and stores the result
    under the key with the route's TTL; a later request for the same key
    before the entry's expiry is answered with the same properties and
    [cached: true], without another call of the loader. *)
Theorem stored_result_round_trip env r w key args wa resp w1 call :
  route_prelude env r w = (Normal (key, args), wa) ->
  route_handler env r w = (Normal resp, w1) ->
  loader_log w1 = loader_log w ++ [call] ->
  truthy (field (lc_result call) "error") = false ->
  http_status resp = 200
  /\ http_body resp !! "cached" = Some (VBool false)
  /\ (forall k, k <> "cached" -> k <> "fetchTime" ->
                http_body resp !! k = lc_result call !! k)
  /\ exists e,
       cache w1 !! key = Some e
       /\ ce_value e = VObj (lc_result call)
       /\ ce_ttlSeconds e = route_ttl r
       /\ forall args2 wb,
            route_prelude env r w1 = (Normal (key, args2), wb) ->
            now_of env wb < ce_expiry e ->
            exists resp2 w2,
              route_handler env r w1 = (Normal resp2, w2)
              /\ http_status resp2 = 200
              /\ http_body resp2 !! "cached" = Some (VBool true)
              /\ (forall k, k <> "cached" -> k <> "cacheTime" ->
                            http_body resp2 !! k = lc_result call !! k)
              /\ loader_log w2 = loader_log w1.
Proof.
  intros Hpre Hrun Hlog Herr.
  destruct (route_handler_cases env r w key args wa Hpre)
    as [[Hhit Hh]|(Hmiss & o & w' & Hf & Hc & Hl & Ht & Hh)].
  { rewrite Hrun in Hh. injection Hh as _ ->.
    destruct (route_prelude_world env r w _ _ Hpre) as (_ & _ & Hl & _).
    cbn [tick loader_log] in Hlog. rewrite Hl in Hlog.
    now apply list_neq_app_one in Hlog. }
  rewrite Hrun in Hh.
  destruct (truthy (field o "error")) eqn:Ho.
  { injection Hh as _ ->.
    rewrite Hl in Hlog. apply app_inv_head in Hlog. injection Hlog as <-.
    cbn [lc_result] in Herr. congruence. }
  injection Hh as -> ->. cbn [loader_log] in Hlog.
  rewrite Hl in Hlog. apply app_inv_head in Hlog. injection Hlog as <-.
  cbn [http_status http_body lc_result cache].
  split; [reflexivity|].
  split; [unfold obj_extend; cbn [foldl fst snd];
          now rewrite lookup_insert_ne, lookup_insert_eq by discriminate|].
  split; [intros k Hk1 Hk2; now apply obj_extend_two_lookup|].
  eexists. split; [apply lookup_insert_eq|]. cbn [ce_value ce_ttlSeconds].
  split; [reflexivity|]. split; [reflexivity|].
  intros args2 wb Hpre2 Hlive.
  match type of Hpre2 with
  | route_prelude env r ?w1 = _ =>
      destruct (route_handler_cases env r w1 key args2 wb Hpre2)
        as [[Hhit2 Hh2]|(Hmiss2 & _)]
  end.
  - cbn [cache] in Hh2. unfold cache_lookup in Hh2.
    rewrite lookup_insert_eq in Hh2.
    replace (live (now_of env wb) _) with true in Hh2
      by (symmetry; apply Z.ltb_lt, Hlive).
    cbn [ce_value spread] in Hh2.
    eexists _, _. split; [exact Hh2|]. cbn [http_status http_body].
    split; [reflexivity|].
    split; [unfold obj_extend; cbn [foldl fst snd];
            now rewrite lookup_insert_ne, lookup_insert_eq by discriminate|].
    split; [intros k Hk1 Hk2; now apply obj_extend_two_lookup|].
    destruct (route_prelude_world env r _ _ _ Hpre2) as (_ & _ & Hl2 & _).
    cbn [tick loader_log] in *. exact Hl2.
  - exfalso. cbn [cache] in Hmiss2. unfold cache_lookup in Hmiss2.
    rewrite lookup_insert_eq in Hmiss2.
    replace (live (now_of env wb) _) with true in Hmiss2
      by (symmetry; apply Z.ltb_lt, Hlive).
    cbn [ce_value truthy] in Hmiss2. discriminate.
Qed.

Lemma stored_result_round_trip_witness :
  http_status (response_of (route_handler utc_env Today initial_world)) = 200
  /\ http_body (response_of (route_handler utc_env Today initial_world))
       !! "cached" = Some (VBool false)
  /\ (forall k, k <> "cached" -> k <> "fetchTime" ->
        http_body (response_of (route_handler utc_env Today initial_world))
          !! k
        = lc_result (last_call served_once) !! k)
  /\ exists e,
       cache served_once !! "matches_today_2024-03-09" = Some e
       /\ ce_value e = VObj (lc_result (last_call served_once))
       /\ ce_ttlSeconds e = route_ttl Today
       /\ forall args2 wb,
            route_prelude utc_env Today served_once
            = (Normal ("matches_today_2024-03-09", args2), wb) ->
            now_of utc_env wb < ce_expiry e ->
            exists resp2 w2,
              route_handler utc_env Today served_once = (Normal resp2, w2)
              /\ http_status resp2 = 200
              /\ http_body resp2 !! "cached" = Some (VBool true)
              /\ (forall k, k <> "cached" -> k <> "cacheTime" ->
                    http_body resp2 !! k
                    = lc_result (last_call served_once) !! k)
              /\ loader_log w2 = loader_log served_once.
Proof.
  apply (stored_result_round_trip utc_env Today initial_world
           "matches_today_2024-03-09"
           (Some "2024-03-09", Some "2024-03-10")
           (tick (tick initial_world))
           (response_of (route_handler utc_env Today initial_world))
           served_once (last_call served_once)).
  - vm_compute. reflexivity.
  - vm_compute. reflexivity.
  - vm_compute. reflexivity.
  - vm_compute. reflexivity.
Defined.

(** X14.  After [cache.flushAll()] no entry survives: the next request
    to either route calls the loader, with the route's date arguments. *)
Theorem request_after_flush_calls_loader env r w key args wa :
  route_prelude env r (flushAll w).2 = (Normal (key, args), wa) ->
  exists resp w' call,
    route_handler env r (flushAll w).2 = (Normal resp, w')
    /\ loader_log w' = loader_log w ++ [call]
    /\ (lc_dateFrom call, lc_dateTo call) = args.
Proof.
  intros Hpre.
  destruct (route_handler_cases env r _ key args wa Hpre)
    as [[Hhit _]|(_ & o & w' & Hf & Hc & Hl & Ht & Hh)].
  { unfold cache_lookup in Hhit. cbn [flushAll snd cache] in Hhit.
    rewrite lookup_empty in Hhit. discriminate. }
  cbn [flushAll snd loader_log] in Hl.
  destruct args as [a b]. cbn [fst snd] in *.
  destruct (truthy (field o "error"));
    eexists _, _, _; (split; [exact Hh|]); cbn [loader_log];
    (split; [exact Hl|reflexivity]).
Qed.

Lemma request_after_flush_calls_loader_witness :
  exists resp w' call,
    route_handler utc_env Today (flushAll served_once).2
    = (Normal resp, w')
    /\ loader_log w' = loader_log served_once ++ [call]
    /\ (lc_dateFrom call, lc_dateTo call)
       = (Some "2024-03-09", Some "2024-03-10").
Proof.
  apply (request_after_flush_calls_loader utc_env Today served_once
           "matches_today_2024-03-09"
           (Some "2024-03-09", Some "2024-03-10")
           (tick (tick (flushAll served_once).2))).
  vm_compute. reflexivity.
Defined.

(** Two dates printed by [toISOString] pass the validation as they
    are, in every time zone. *)
Lemma build_params_both_iso env D1 D2 :
  Z.abs (D1 * msPerDay) <= maxTime -> Z.abs (D2 * msPerDay) <= maxTime ->
  build_params env (Some (iso_date D1)) (Some (iso_date D2))
  = Normal [("dateFrom", iso_date D1); ("dateTo", iso_date D2)].
Proof.
  intros H1 H2. unfold build_params, new_Date_of, iso_date.
  cbn [opt_value truthy]. rewrite !iso_date_nonempty. cbn [negb andb].
  rewrite (Date_parse_iso_date _ _ H1). cbn [isNaN_date cbind].
  cbn [opt_value truthy]. rewrite iso_date_nonempty. cbn [negb].
  rewrite (Date_parse_iso_date _ _ H2). reflexivity.
Qed.

(** A miss on either route, with the key and the query kept abstract. *)
Lemma route_miss_issues_request env r w key args wa tok ps :
  route_prelude env r w = (Normal (key, args), wa) ->
  truthy (cache_lookup (now_of env wa) (cache w) key) = false ->
  FOOTBALL_API_TOKEN env = Some tok -> truthy (VStr tok) = true ->
  env_import_error env = None ->
  build_params env args.1 args.2 = Normal ps ->
  exists resp w' call,
    route_handler env r w = (Normal resp, w')
    /\ loader_log w' = loader_log w ++ [call]
    /\ (lc_dateFrom call, lc_dateTo call) = args
    /\ net_log w' = net_log w ++ [matches_request tok ps].
Proof.
  intros Hpre Hmiss Htok Htruthy Himp Hps.
  destruct (route_prelude_world env r w _ _ Hpre) as (_ & Hn & _ & _).
  destruct (route_handler_cases env r w key args wa Hpre)
    as [[Hhit _]|(_ & o & w' & Hf & Hc & Hl & Ht & Hh)]; [congruence|].
  destruct (fetchMatches_issues_request env args.1 args.2 (tick wa) tok ps
              Htok Htruthy Himp Hps) as (o' & w'' & Hf' & Hn').
  rewrite Hf in Hf'. injection Hf' as <- <-.
  cbn [tick net_log] in Hn'. rewrite Hn in Hn'.
  destruct args as [a b]. cbn [fst snd] in *.
  destruct (truthy (field o "error"));
    eexists _, _, _; (split; [exact Hh|]); cbn [loader_log net_log];
    (split; [exact Hl|]); (split; [reflexivity|exact Hn']).
Qed.

(** X6.  On a cache miss the today route asks the upstream for the range
    from today to tomorrow: on a host with a fixed UTC offset the
    outbound call carries [dateFrom], the current UTC date, and [dateTo],
    the UTC date one day after the second clock reading; no default is
    added. *)
Theorem today_fetch_range env off w tok :
  env_zone env = fixed_zone off ->
  FOOTBALL_API_TOKEN env = Some tok -> truthy (VStr tok) = true ->
  env_import_error env = None ->
  Z.abs (now_of env w) <= maxTime - 7 * msPerDay ->
  Z.abs (now_of env (tick w)) <= maxTime - 7 * msPerDay ->
  truthy (cache_lookup (now_of env (tick (tick w))) (cache w)
            ("matches_today_" +:+ iso_date (Day (now_of env w)))) = false ->
  exists resp w' call,
    route_handler env Today w = (Normal resp, w')
    /\ loader_log w' = loader_log w ++ [call]
    /\ (lc_dateFrom call, lc_dateTo call)
       = (Some (iso_date (Day (now_of env w))),
          Some (iso_date (Day (now_of env (tick w)) + 1)))
    /\ net_log w'
       = net_log w ++
         [matches_request tok
            [("dateFrom", iso_date (Day (now_of env w)));
             ("dateTo", iso_date (Day (now_of env (tick w)) + 1))]].
Proof.
  intros Hz Htok Htruthy Himp Hr0 Hr1 Hmiss.
  assert (Hb0 : Z.abs (Day (now_of env w) * msPerDay) <= maxTime).
  { unfold Day, maxTime, msPerDay in *.
    Z.to_euclidean_division_equations. lia. }
  assert (Hb1 : Z.abs ((Day (now_of env (tick w)) + 1) * msPerDay) <= maxTime).
  { unfold Day, maxTime, msPerDay in *.
    Z.to_euclidean_division_equations. lia. }
  revert Hmiss Hb0 Hb1.
  generalize (eq_refl (Day (now_of env w))).
  generalize (Day (now_of env w)) at 1 3 4 5 6.
  generalize (eq_refl (Day (now_of env (tick w)) + 1)).
  generalize (Day (now_of env (tick w)) + 1) at 1 3 4 5.
  intros D1 HD1 D0 HD0 Hmiss Hb0 Hb1.
  apply (route_miss_issues_request env Today w
           ("matches_today_" +:+ iso_date D0)
           (Some (iso_date D0), Some (iso_date D1)) (tick (tick w)) tok);
    try assumption.
  - cbn [route_prelude].
    erewrite bind_normal;
      [|rewrite (getDateString_fixed_zone_day env off 0 w Hz)
          by (unfold maxTime, msPerDay in *; lia);
        rewrite Z.add_0_r, <- HD0; reflexivity].
    erewrite bind_normal;
      [|rewrite (getDateString_fixed_zone_day env off 1 (tick w) Hz)
          by (unfold maxTime, msPerDay in *; lia);
        rewrite <- HD1; reflexivity].
    reflexivity.
  - exact (build_params_both_iso env D0 D1 Hb0 Hb1).
Qed.

Lemma today_fetch_range_witness :
  exists resp w' call,
    route_handler utc_env Today initial_world = (Normal resp, w')
    /\ loader_log w' = loader_log initial_world ++ [call]
    /\ (lc_dateFrom call, lc_dateTo call)
       = (Some (iso_date (Day (now_of utc_env initial_world))),
          Some (iso_date (Day (now_of utc_env (tick initial_world)) + 1)))
    /\ net_log w'
       = net_log initial_world ++
         [matches_request "k"
            [("dateFrom", iso_date (Day (now_of utc_env initial_world)));
             ("dateTo",
              iso_date (Day (now_of utc_env (tick initial_world)) + 1))]].
Proof.
  apply (today_fetch_range utc_env 0 initial_world "k").
  - reflexivity.
  - reflexivity.
  - reflexivity.
  - reflexivity.
  - vm_compute. discriminate.
  - vm_compute. discriminate.
  - vm_compute. reflexivity.
Defined.

Lemma route_handler_stored_results env r w :
  stored_results w -> stored_results (route_handler env r w).2.
Proof.
  intros Hinv.
  destruct (route_prelude env r w) as [[[key args]|msg] wa] eqn:Hpre.
  2:{ rewrite (route_handler_throw env r w msg wa Hpre). cbn [snd].
      destruct (route_prelude_world env r w _ _ Hpre) as (Hc & _).
      intros k e Hk. rewrite Hc in Hk. exact (Hinv _ _ Hk). }
  destruct (route_prelude_world env r w _ _ Hpre) as (Hc & _).
  destruct (route_handler_cases env r w key args wa Hpre)
    as [[_ Hh]|(_ & o & w' & Hf & Hc' & Hl' & Ht' & Hh)]; rewrite Hh.
  - cbn [snd]. intros k e Hk. cbn [cache tick] in Hk.
    rewrite Hc in Hk. exact (Hinv _ _ Hk).
  - destruct (fetchMatches_footprint env args.1 args.2 (tick wa))
      as (o1 & w1 & Hf1 & Hshape & _).
    rewrite Hf in Hf1. injection Hf1 as <- <-.
    destruct (truthy (field o "error")); cbn [snd];
      intros k e Hk; cbn [cache] in Hk.
    + rewrite Hc' in Hk. exact (Hinv _ _ Hk).
    + destruct (decide (key = k)) as [<-|Hne].
      * rewrite lookup_insert_eq in Hk. injection Hk as <-. eauto.
      * rewrite lookup_insert_ne in Hk by exact Hne.
        rewrite Hc' in Hk. exact (Hinv _ _ Hk).
Qed.

Lemma reachable_stored_results env w : reachable env w -> stored_results w.
Proof.
  unfold reachable.
  apply (rtc_ind_r (R := step env) stored_results initial_world).
  - intros k e Hk. cbn in Hk. rewrite lookup_empty in Hk. discriminate.
  - intros y z _ Hstep Hy. destruct Hstep as [r w0|w0|w0|w0].
    + now apply route_handler_stored_results.
    + exact Hy.
    + intros k e Hk. cbn in Hk.
      apply map_lookup_filter_Some in Hk as [Hk _]. exact (Hy _ _ Hk).
    + intros k e Hk. cbn in Hk. rewrite lookup_empty in Hk. discriminate.
Qed.

(** X15.  In every reachable state, a 200 answer of a match route, fresh
    or served from the cache, carries only matches whose status is
    SCHEDULED, LIVE, IN_PLAY or PAUSED, and a [count] equal to their
    number. *)
Theorem served_matches_are_wanted env r w resp w' :
  reachable env w ->
  route_handler env r w = (Normal resp, w') ->
  http_status resp = 200 ->
  exists ms,
    http_body resp !! "matches" = Some (VArr ms)
    /\ Forall wanted_status ms
    /\ http_body resp !! "count" = Some (VNum (Z.of_nat (length ms))).
Proof.
  intros Hreach Hrun Hstatus.
  pose proof (reachable_stored_results env w Hreach) as Hinv.
  destruct (route_prelude env r w) as [[[key args]|msg] wa] eqn:Hpre.
  2:{ rewrite (route_handler_throw env r w msg wa Hpre) in Hrun.
      discriminate. }
  destruct (route_handler_cases env r w key args wa Hpre)
    as [[Hhit Hh]|(_ & o & w1 & Hf & Hc & Hl & Ht & Hh)];
    rewrite Hrun in Hh.
  - injection Hh as -> _. unfold cache_lookup in *.
    destruct (cache w !! key) as [e|] eqn:He; [|discriminate].
    destruct (live (now_of env wa) e); [|discriminate].
    destruct (Hinv key e He) as (o & Ho & Hshape).
    rewrite Ho. cbn [spread http_body].
    destruct (result_shape_matches o Hshape) as (ms & Hm & Hw & Hn).
    exists ms. unfold obj_extend. cbn [foldl fst snd].
    rewrite !lookup_insert_ne by discriminate. auto.
  - destruct (fetchMatches_footprint env args.1 args.2 (tick wa))
      as (o1 & w2 & Hf1 & Hshape & _).
    rewrite Hf in Hf1. injection Hf1 as <- <-.
    destruct (truthy (field o "error")).
    + injection Hh as -> _. discriminate.
    + injection Hh as -> _. cbn [http_body].
      destruct (result_shape_matches o Hshape) as (ms & Hm & Hw & Hn).
      exists ms.
      unfold obj_extend. cbn [foldl fst snd].
      rewrite !lookup_insert_ne by discriminate. auto.
Qed.

Lemma served_once_reachable : reachable utc_env served_once.
Proof.
  unfold reachable, served_once.
  eapply rtc_l; [apply (step_request utc_env Today)|]. apply rtc_refl.
Qed.

Lemma served_matches_are_wanted_witness :
  exists ms,
    http_body (response_of (route_handler utc_env Today served_once))
      !! "matches" = Some (VArr ms)
    /\ Forall wanted_status ms
    /\ http_body (response_of (route_handler utc_env Today served_once))
         !! "count" = Some (VNum (Z.of_nat (length ms))).
Proof.
  apply (served_matches_are_wanted utc_env Today served_once
           (response_of (route_handler utc_env Today served_once))
           (route_handler utc_env Today served_once).2
           served_once_reachable).
  - vm_compute. reflexivity.
  - vm_compute. reflexivity.
Defined.

(** X16.  A request to a match route touches the world in a bounded way:
    it makes at most one outbound call and at most one call of the
    loader, and in the store it can only write the key that begins with
    its own route's prefix; every other key keeps its entry. *)
Theorem route_handler_footprint env r w :
  (net_log (route_handler env r w).2 = net_log w
   \/ exists req, net_log (route_handler env r w).2 = net_log w ++ [req])
  /\ (loader_log (route_handler env r w).2 = loader_log w
      \/ exists call,
           loader_log (route_handler env r w).2 = loader_log w ++ [call])
  /\ forall k, (forall d, k <> route_prefix r +:+ d) ->
               cache (route_handler env r w).2 !! k = cache w !! k.
Proof.
  destruct (route_prelude env r w) as [[[key args]|msg] wa] eqn:Hpre.
  2:{ rewrite (route_handler_throw env r w msg wa Hpre). cbn [snd].
      destruct (route_prelude_world env r w _ _ Hpre) as (Hc & Hn & Hl & _).
      rewrite Hc, Hn, Hl. auto. }
  destruct (route_prelude_world env r w _ _ Hpre) as (Hc & Hn & Hl & _).
  destruct (route_prelude_key env r w key args wa Hpre) as (d & _ & Hkey).
  destruct (route_handler_cases env r w key args wa Hpre)
    as [[_ Hh]|(_ & o & w1 & Hf & Hc' & Hl' & Ht' & Hh)]; rewrite Hh.
  - cbn [snd tick net_log loader_log cache]. rewrite Hc, Hn, Hl. auto.
  - destruct (fetchMatches_footprint env args.1 args.2 (tick wa))
      as (o1 & w2 & Hf1 & _ & _ & Hnet).
    rewrite Hf in Hf1. injection Hf1 as <- <-.
    cbn [tick net_log] in Hnet. rewrite Hn in Hnet.
    destruct (truthy (field o "error"));
      cbn [snd net_log loader_log cache];
      (split; [exact Hnet|]); (split; [right; eauto|]); intros k Hk.
    + now rewrite Hc'.
    + rewrite lookup_insert_ne by (subst key; intros <-; now apply (Hk d)).
      now rewrite Hc'.
Qed.

(** ** Cross-origin policy and error middleware *)

(** X11.  The origin check lets a request pass exactly when it has no
    origin (or an empty one) or its origin is one of the three listed;
    every other origin is refused with "Not allowed by CORS", the very
    error that the error middleware answers with 403 and
    [{error: "CORS policy violation"}], in every mode. *)
Theorem cors_policy origin :
  (cors_origin origin = Normal true
   /\ (origin = None \/ origin = Some ""
       \/ exists o, origin = Some o /\ In o allowed_origins))
  \/ (cors_origin origin = Throw "Not allowed by CORS"
      /\ (exists o, origin = Some o /\ o <> "" /\ ~ In o allowed_origins)
      /\ forall node_env status stack,
           error_middleware node_env
             {| err_message := "Not allowed by CORS"; err_status := status;
                err_stack := stack |}
           = {| http_status := 403;
                http_body :=
                  obj_literal [("error", VStr "CORS policy violation")] |}).
Proof.
  unfold cors_origin. destruct origin as [o|]; [|left; auto].
  cbn [opt_value truthy from_option id].
  destruct (String.eqb o "") eqn:Hempty; cbn [negb].
  { apply String.eqb_eq in Hempty as ->. left. auto. }
  apply String.eqb_neq in Hempty.
  destruct (existsb (String.eqb o) allowed_origins) eqn:Hin.
  - left. split; [reflexivity|]. right. right. exists o.
    split; [reflexivity|].
    apply existsb_exists in Hin as (x & Hx & Heq).
    apply String.eqb_eq in Heq. now subst.
  - right. split; [reflexivity|]. split; [|reflexivity].
    exists o. split; [reflexivity|]. split; [exact Hempty|].
    intros Ho.
    assert (Htrue : existsb (String.eqb o) allowed_origins = true)
      by (apply existsb_exists; exists o; split;
          [exact Ho|apply String.eqb_refl]).
    congruence.
Qed.

(** X12.  Outside development mode the error middleware sends no detail
    of the error: whatever the error's message and stack are, the body is
    [{error: "Internal server error", message: "Something went wrong"}]
    with the error's status (500 when it has none or 0), or the CORS
    answer; it never has a [stack]. *)
Theorem errors_hide_details_outside_development node_env err :
  node_env <> Some "development" ->
  (error_middleware node_env err
   = {| http_status := 403;
        http_body := obj_literal [("error", VStr "CORS policy violation")] |}
   \/ error_middleware node_env err
      = {| http_status := error_status err;
           http_body :=
             obj_literal [("error", VStr "Internal server error");
                          ("message", VStr "Something went wrong")] |})
  /\ http_body (error_middleware node_env err) !! "stack" = None.
Proof.
  intros Hdev. unfold error_middleware, global_error_handler.
  assert (HisDev : match node_env with
                   | Some s => String.eqb s "development"
                   | None => false
                   end = false).
  { destruct node_env as [s|]; [|reflexivity].
    apply String.eqb_neq. congruence. }
  rewrite HisDev.
  destruct (String.eqb (err_message err) "Not allowed by CORS").
  - split; [now left|reflexivity].
  - split; [now right|reflexivity].
Qed.

Lemma errors_hide_details_outside_development_witness :
  (error_middleware (Some "production")
     {| err_message := "connect ECONNREFUSED"; err_status := None;
        err_stack := "Error: connect ECONNREFUSED at server.js:81" |}
   = {| http_status := 403;
        http_body := obj_literal [("error", VStr "CORS policy violation")] |}
   \/ error_middleware (Some "production")
        {| err_message := "connect ECONNREFUSED"; err_status := None;
           err_stack := "Error: connect ECONNREFUSED at server.js:81" |}
      = {| http_status :=
             error_status
               {| err_message := "connect ECONNREFUSED"; err_status := None;
                  err_stack := "Error: connect ECONNREFUSED at server.js:81" |};
           http_body :=
             obj_literal [("error", VStr "Internal server error");
                          ("message", VStr "Something went wrong")] |})
  /\ http_body
       (error_middleware (Some "production")
          {| err_message := "connect ECONNREFUSED"; err_status := None;
             err_stack := "Error: connect ECONNREFUSED at server.js:81" |})
     !! "stack" = None.
Proof.
  apply (errors_hide_details_outside_development (Some "production")
           {| err_message := "connect ECONNREFUSED"; err_status := None;
              err_stack := "Error: connect ECONNREFUSED at server.js:81" |}).
  discriminate.
Defined.






